(** * Mention rewriting of discordgo's [Message] (message.go)

  A shallow embedding of [Reference], [ContentWithMentionsReplaced] and
  [ContentWithMoreMentionsReplaced], together with the three library
  routines they call ([strings.NewReplacer(...).Replace],
  [strings.Replace] and [regexp.ReplaceAllStringFunc]).

  Go strings are byte sequences; they are rendered as [string], whose
  characters are the 256 values of [ascii]. *)

From Stdlib Require Import String Ascii List Bool Arith ZArith Lia.
Import ListNotations.
Open Scope list_scope.
Open Scope string_scope.

(* ================================================================== *)
(** * Calls to the state cache

    message.go reads the cache through three methods of [State] and never
    writes to it.  A computation that may call them returns its value
    together with the calls it made, in the order it made them. *)

Inductive Call : Type :=
| CallChannel (channelID : string)
| CallMember (guildID userID : string)
| CallRole (guildID roleID : string).

Definition M (A : Type) : Type := (A * list Call)%type.

Definition ret {A : Type} (a : A) : M A := (a, []).

Definition bind {A B : Type} (m : M A) (f : A -> M B) : M B :=
  let (a, calls) := m in
  let (b, calls') := f a in
  (b, (calls ++ calls')%list).

Definition value {A : Type} (m : M A) : A := fst m.

Definition calls {A : Type} (m : M A) : list Call := snd m.

Notation "x <- m ;; k" := (bind m (fun x => k))
  (at level 61, m at next level, right associativity).

(* ================================================================== *)
(** * Package [strings] *)

Module strings.

(** [strings.HasPrefix(s, prefix)]. *)
Definition HasPrefix (s prefix : string) : bool := String.prefix prefix s.

(** A [Replacer] built by [strings.NewReplacer(old1, new1, old2, new2, ...)]:
    the (old, new) pairs in argument order. *)
Definition Replacer : Type := list (string * string).

Definition NewReplacer (oldnew : list (string * string)) : Replacer := oldnew.

(** The generic replacer's [lookup]: among the old strings that are a
    prefix of [s], the one given first to [NewReplacer] wins; the result
    is its new string and the length of the old one.  With [ignoreRoot]
    an empty old string is not a candidate. *)
Fixpoint lookup (r : Replacer) (s : string) (ignoreRoot : bool)
  : option (string * nat) :=
  match r with
  | [] => None
  | (old, new) :: r' =>
      if HasPrefix s old && negb (ignoreRoot && Nat.eqb (String.length old) 0)
      then Some (new, String.length old)
      else lookup r' s ignoreRoot
  end.

(** The generic replacer's scanning loop.  Go keeps an index [i] into
    the argument and, after a match, adds the length of the matched old
    string to it; here the bytes of a matched old string still to be
    stepped over are counted by [skip].  An empty old string matches at
    every position where the previous match was not the empty one, and
    once more at the end of the argument. *)
Fixpoint WriteString (r : Replacer) (skip : nat) (s : string) : string :=
  match s with
  | "" => match lookup r "" false with
          | Some (val, _) => val
          | None => ""
          end
  | String c s' =>
      match skip with
      | S k => WriteString r k s'
      | O =>
          match lookup r s false with
          | Some (val, S k) => val ++ WriteString r k s'
          | Some (val, O) =>
              val ++
              match lookup r s true with
              | Some (val', S k) => val' ++ WriteString r k s'
              | _ => String c (WriteString r 0 s')
              end
          | None => String c (WriteString r 0 s')
          end
      end
  end.

(** [r.Replace(s)]. *)
Definition Replacer_Replace (r : Replacer) (s : string) : string :=
  WriteString r 0 s.

(** [strings.Replace(s, old, new, -1)] for a non-empty [old]: the
    non-overlapping instances of [old] are replaced from left to right,
    which is the scan of the one-pair replacer.  (For an empty [old] Go
    inserts [new] around every UTF-8 sequence; message.go never passes
    one, its old string starts with "<@&".) *)
Definition Replace (s old new : string) : string :=
  Replacer_Replace (NewReplacer [(old, new)]) s.

End strings.

(* ================================================================== *)
(** * Package [regexp], as far as [patternChannels] needs it *)

Module regexp.

(** The pieces a pattern is the concatenation of. *)
Inductive piece : Type :=
| Lit (c : ascii)        (** the literal byte [c] *)
| StarNot (c : ascii).   (** [[^c]*], greedy *)

Definition Regexp : Type := list piece.

(** Length of the match of [re] that starts at the head of [s], if there
    is one.  A star takes as many bytes as it can and gives them back
    one at a time when the rest of the pattern does not match (Go's
    leftmost-first preference). *)
Fixpoint matchHere (re : Regexp) (s : string) {struct re} : option nat :=
  match re with
  | [] => Some 0
  | Lit c :: re' =>
      match s with
      | String a s' =>
          if Ascii.eqb a c then option_map S (matchHere re' s') else None
      | "" => None
      end
  | StarNot c :: re' =>
      (fix star (s : string) {struct s} : option nat :=
         match s with
         | String a s' =>
             if Ascii.eqb a c then matchHere re' s
             else match star s' with
                  | Some n => Some (S n)
                  | None => matchHere re' s
                  end
         | "" => matchHere re' s
         end) s
  end.

(** [re.ReplaceAllStringFunc(src, repl)]: the matches of [re] in [src]
    are found from left to right, each search starting where the previous
    match ended, and each match is replaced by what [repl] returns for it;
    [repl] is called once per match, in that order.  As in [WriteString],
    [skip] counts the bytes of the current match still to be stepped over.
    [patternChannels] only matches three bytes or more; the empty match,
    which Go also hands to [repl], is treated as no match. *)
Fixpoint replaceAll (re : Regexp) (repl : string -> M string)
                    (skip : nat) (src : string) : M string :=
  match src with
  | "" => ret ""
  | String c src' =>
      match skip with
      | S k => replaceAll re repl k src'
      | O =>
          match matchHere re src with
          | Some (S n) =>
              new <- repl (substring 0 (S n) src) ;;
              rest <- replaceAll re repl n src' ;;
              ret (new ++ rest)
          | _ =>
              rest <- replaceAll re repl 0 src' ;;
              ret (String c rest)
          end
      end
  end.

Definition ReplaceAllStringFunc (re : Regexp) (src : string)
                                (repl : string -> M string) : M string :=
  replaceAll re repl 0 src.

End regexp.

(* ================================================================== *)
(** * Data model *)

(** Go's [error] values; a nil [error] is [None] in [option error]. *)
Inductive error : Type :=
| errors_New (text : string).

(** What a cache lookup returns: the entity with a nil error, or a nil
    entity with the error. *)
Inductive found (A : Type) : Type :=
| Found (a : A)
| Missing (err : error).

Arguments Found {A} a.
Arguments Missing {A} err.

Module User.
(** Modelled from the spec: the [User] struct is declared in user.go, which
    is not among the sources; these are the fields message.go reads. *)
Record t : Type := mk { ID : string; Username : string }.
End User.

Module Member.
(** Modelled from the spec: the [Member] struct is declared in structs.go,
    which is not among the sources; [Nick] may be empty. *)
Record t : Type := mk { Nick : string }.
End Member.

Module Role.
(** Modelled from the spec: the [Role] struct is declared in structs.go,
    which is not among the sources. *)
Record t : Type := mk { ID : string; Name : string; Mentionable : bool }.
End Role.

(** Modelled from the spec: [ChannelType] and its constants are declared in
    structs.go, which is not among the sources; the spec calls it an
    enumerated kind with a voice kind and text kinds.  message.go only
    compares a channel's type with [ChannelTypeGuildVoice]. *)
Inductive ChannelType : Type :=
| ChannelTypeGuildText
| ChannelTypeDM
| ChannelTypeGuildVoice
| ChannelTypeGroupDM
| ChannelTypeGuildCategory.

Definition ChannelType_eqb (a b : ChannelType) : bool :=
  match a, b with
  | ChannelTypeGuildText, ChannelTypeGuildText
  | ChannelTypeDM, ChannelTypeDM
  | ChannelTypeGuildVoice, ChannelTypeGuildVoice
  | ChannelTypeGroupDM, ChannelTypeGroupDM
  | ChannelTypeGuildCategory, ChannelTypeGuildCategory => true
  | _, _ => false
  end.

Module Channel.
(** Modelled from the spec: the [Channel] struct is declared in structs.go,
    which is not among the sources. *)
Record t : Type :=
  mk { ID : string; GuildID : string; Name : string; Type_ : ChannelType }.
End Channel.

Module State.
(** Modelled from the spec: [State] and its methods [Channel], [Member] and
    [Role] are declared in state.go, which is not among the sources.  The
    cache is taken as it stands during one call: what each of the three
    lookups answers for each argument. *)
Record t : Type :=
  mk { Channel_ : string -> found Channel.t;
       Member_ : string -> string -> found Member.t;
       Role_ : string -> string -> found Role.t }.

(** [s.State.Channel(channelID)]. *)
Definition Channel (st : t) (channelID : string) : M (found Channel.t) :=
  (Channel_ st channelID, [CallChannel channelID]).

(** [s.State.Member(guildID, userID)]. *)
Definition Member (st : t) (guildID userID : string) : M (found Member.t) :=
  (Member_ st guildID userID, [CallMember guildID userID]).

(** [s.State.Role(guildID, roleID)]. *)
Definition Role (st : t) (guildID roleID : string) : M (found Role.t) :=
  (Role_ st guildID roleID, [CallRole guildID roleID]).
End State.

Module Session.
(** Modelled from the spec: the [Session] struct is declared in structs.go,
    which is not among the sources; these are the fields message.go reads. *)
Record t : Type := mk { StateEnabled : bool; State : State.t }.
End Session.

Module Message.
(** The fields of [Message] that the three methods read.  [Mentions] is a
    slice of pointers to [User]; its entries are taken to be non-nil. *)
Record t : Type :=
  mk { ID : string;
       ChannelID : string;
       GuildID : string;
       Content : string;
       MentionRoles : list string;
       Mentions : list User.t }.
End Message.

Module MessageReference.
Record t : Type :=
  mk { MessageID : string; ChannelID : string; GuildID : string }.
End MessageReference.

(* ================================================================== *)
(** * The methods of [Message] *)

(** [for _, x := range xs { content = body(content, x) }]. *)
Fixpoint for_range {A : Type} (xs : list A) (body : string -> A -> M string)
                   (content : string) : M string :=
  match xs with
  | [] => ret content
  | x :: xs' =>
      content' <- body content x ;;
      for_range xs' body content'
  end.

(** The slice expression [s[lo:hi]]. *)
Definition slice (s : string) (lo hi : nat) : string :=
  substring lo (hi - lo) s.

Definition Reference (m : Message.t) : MessageReference.t :=
  {| MessageReference.GuildID := Message.GuildID m;
     MessageReference.ChannelID := Message.ChannelID m;
     MessageReference.MessageID := Message.ID m |}.

Definition ContentWithMentionsReplaced (m : Message.t) : string :=
  fold_left
    (fun content user =>
       strings.Replacer_Replace
         (strings.NewReplacer
            [("<@" ++ User.ID user ++ ">", "@" ++ User.Username user);
             ("<@!" ++ User.ID user ++ ">", "@" ++ User.Username user)])
         content)
    (Message.Mentions m) (Message.Content m).

(** [regexp.MustCompile("<#[^>]*>")]. *)
Definition patternChannels : regexp.Regexp :=
  [regexp.Lit "<"; regexp.Lit "#"; regexp.StarNot ">"; regexp.Lit ">"].

(** Body of the loop over [m.Mentions] in [ContentWithMoreMentionsReplaced].
    The [err] it declares is local to the loop body. *)
Definition userBody (s : Session.t) (channel : Channel.t)
                    (content : string) (user : User.t) : M string :=
  let nick := User.Username user in
  r <- State.Member (Session.State s) (Channel.GuildID channel) (User.ID user) ;;
  let nick :=
    match r with
    | Found member =>
        if negb (Member.Nick member =? "") then Member.Nick member else nick
    | Missing _ => nick
    end in
  ret (strings.Replacer_Replace
         (strings.NewReplacer
            [("<@" ++ User.ID user ++ ">", "@" ++ User.Username user);
             ("<@!" ++ User.ID user ++ ">", "@" ++ nick)])
         content).

(** Body of the loop over [m.MentionRoles]; [continue] leaves [content] as
    it is.  The [err] it declares is local to the loop body. *)
Definition roleBody (s : Session.t) (channel : Channel.t)
                    (content : string) (roleID : string) : M string :=
  r <- State.Role (Session.State s) (Channel.GuildID channel) roleID ;;
  match r with
  | Found role =>
      if negb (Role.Mentionable role) then ret content
      else ret (strings.Replace content
                  ("<@&" ++ Role.ID role ++ ">") ("@" ++ Role.Name role))
  | Missing _ => ret content
  end.

(** The function literal handed to [ReplaceAllStringFunc]. *)
Definition channelRepl (s : Session.t) (mention : string) : M string :=
  r <- State.Channel (Session.State s)
         (slice mention 2 (String.length mention - 1)) ;;
  match r with
  | Found channel =>
      if ChannelType_eqb (Channel.Type_ channel) ChannelTypeGuildVoice
      then ret mention
      else ret ("#" ++ Channel.Name channel)
  | Missing _ => ret mention
  end.

(** The result is the pair of the named results [content] and [err].
    [channel, err := s.State.Channel(m.ChannelID)] stands in the function's
    own block, so it assigns the named result [err], and the bare [return]
    that follows returns it. *)
Definition ContentWithMoreMentionsReplaced (m : Message.t) (s : Session.t)
  : M (string * option error) :=
  let content := Message.Content m in
  if negb (Session.StateEnabled s) then
    ret (ContentWithMentionsReplaced m, None)
  else
    r <- State.Channel (Session.State s) (Message.ChannelID m) ;;
    match r with
    | Missing err => ret (ContentWithMentionsReplaced m, Some err)
    | Found channel =>
        content <- for_range (Message.Mentions m) (userBody s channel) content ;;
        content <- for_range (Message.MentionRoles m) (roleBody s channel) content ;;
        content <- regexp.ReplaceAllStringFunc patternChannels content
                     (channelRepl s) ;;
        ret (content, None)
    end.

(* ================================================================== *)
(** * Vocabulary of the statements *)

(** The tokens message.go builds for a user, a role and a channel. *)
Definition bareToken (userID : string) : string := "<@" ++ userID ++ ">".

Definition bangToken (userID : string) : string := "<@!" ++ userID ++ ">".

Definition userTokens (user : User.t) : list string :=
  [bareToken (User.ID user); bangToken (User.ID user)].

Definition roleToken (roleID : string) : string := "<@&" ++ roleID ++ ">".

Definition channelToken (channelID : string) : string :=
  "<#" ++ channelID ++ ">".

(** The name the user loop shows for "<@!ID>": the member's nickname when
    the member is found and has one, the user's name otherwise. *)
Definition nickOf (s : Session.t) (channel : Channel.t) (user : User.t)
  : string :=
  match State.Member_ (Session.State s) (Channel.GuildID channel)
          (User.ID user) with
  | Found member =>
      if Member.Nick member =? "" then User.Username user
      else Member.Nick member
  | Missing _ => User.Username user
  end.

(** Some string of [olds] begins [s]. *)
Definition beginsWith (olds : list string) (s : string) : bool :=
  existsb (strings.HasPrefix s) olds.

(** [re] matches at the head of [s]. *)
Definition matches (re : regexp.Regexp) (s : string) : bool :=
  match regexp.matchHere re s with
  | Some _ => true
  | None => false
  end.

(** In [pre ++ rest], [hit] holds at no position that lies in [pre]:
    whatever [hit] recognises, its leftmost occurrence is not before
    [rest]. *)
Fixpoint noneStartsIn (hit : string -> bool) (pre rest : string) : bool :=
  match pre with
  | "" => true
  | String _ pre' => negb (hit (pre ++ rest)) && noneStartsIn hit pre' rest
  end.

(** The byte [c] occurs in [s]. *)
Fixpoint hasByte (c : ascii) (s : string) : bool :=
  match s with
  | "" => false
  | String a s' => Ascii.eqb a c || hasByte c s'
  end.

(** [re.FindAllString(src, -1)]: the matches [ReplaceAllStringFunc] hands
    to its function, in order. *)
Fixpoint findAll (re : regexp.Regexp) (skip : nat) (src : string)
  : list string :=
  match src with
  | "" => []
  | String c src' =>
      match skip with
      | S k => findAll re k src'
      | O =>
          match regexp.matchHere re src with
          | Some (S n) => substring 0 (S n) src :: findAll re n src'
          | _ => findAll re 0 src'
          end
      end
  end.

Definition FindAllString (re : regexp.Regexp) (src : string) : list string :=
  findAll re 0 src.

(** The channel token [mention] names no channel of the cache, or a voice
    channel. *)
Definition unresolvedChannel (s : Session.t) (mention : string) : bool :=
  match State.Channel_ (Session.State s)
          (slice mention 2 (String.length mention - 1)) with
  | Found channel => ChannelType_eqb (Channel.Type_ channel) ChannelTypeGuildVoice
  | Missing _ => true
  end.

(** [s] without its first [n] bytes. *)
Fixpoint dropBytes (n : nat) (s : string) : string :=
  match n, s with
  | S k, String _ s' => dropBytes k s'
  | _, _ => s
  end.

(** [z] agrees with [y] up to a byte where [y] has '<' and [z] has [c]. *)
Definition turned (c : ascii) (y z : string) : Prop :=
  exists pre a b, y = pre ++ String "<" a /\ z = pre ++ String c b.

(** One turn of the loop of [ContentWithMentionsReplaced]. *)
Definition basicStep (content : string) (user : User.t) : string :=
  strings.Replacer_Replace
    (strings.NewReplacer
       [("<@" ++ User.ID user ++ ">", "@" ++ User.Username user);
        ("<@!" ++ User.ID user ++ ">", "@" ++ User.Username user)])
    content.

(** The message [m] with [content] for its [Content]. *)
Definition withContent (m : Message.t) (content : string) : Message.t :=
  {| Message.ID := Message.ID m;
     Message.ChannelID := Message.ChannelID m;
     Message.GuildID := Message.GuildID m;
     Message.Content := content;
     Message.MentionRoles := Message.MentionRoles m;
     Message.Mentions := Message.Mentions m |}.

(* ================================================================== *)
(** * A small guild, for the examples *)

Module Sample.

Definition alice : User.t := User.mk "42" "alice".

Definition lobby : Channel.t :=
  Channel.mk "10" "100" "lobby" ChannelTypeGuildText.

Definition general : Channel.t :=
  Channel.mk "7" "100" "general" ChannelTypeGuildText.

Definition talk : Channel.t :=
  Channel.mk "8" "100" "talk" ChannelTypeGuildVoice.

Definition mods : Role.t := Role.mk "5" "mods" true.

Definition hidden : Role.t := Role.mk "6" "hidden" false.

Definition ErrStateNotFound : error := errors_New "state cache not found".

(** A cache holding guild 100 with the channels 10, 7 and 8, the member 42
    with nickname Al, and the roles 5 and 6. *)
Definition state : State.t :=
  State.mk
    (fun channelID =>
       if channelID =? "10" then Found lobby
       else if channelID =? "7" then Found general
       else if channelID =? "8" then Found talk
       else Missing ErrStateNotFound)
    (fun guildID userID =>
       if (guildID =? "100") && (userID =? "42") then Found (Member.mk "Al")
       else Missing ErrStateNotFound)
    (fun guildID roleID =>
       if (guildID =? "100") && (roleID =? "5") then Found mods
       else if (guildID =? "100") && (roleID =? "6") then Found hidden
       else Missing ErrStateNotFound).

Definition bob : User.t := User.mk "43" "bob".

Definition session : Session.t := Session.mk true state.

Definition sessionOff : Session.t := Session.mk false state.

(** A message in channel 10 (cached) or in channel 11 (not cached). *)
Definition message (channelID content : string) (roles : list string)
                   (users : list User.t) : Message.t :=
  Message.mk "1" channelID "100" content roles users.

End Sample.

(* ================================================================== *)
(** * Further vocabulary *)

(** The role ID [roleID] names no role of the guild in the cache, or a
    role that is not mentionable. *)
Definition unresolvedRole (s : Session.t) (channel : Channel.t)
                          (roleID : string) : bool :=
  match State.Role_ (Session.State s) (Channel.GuildID channel) roleID with
  | Found role => negb (Role.Mentionable role)
  | Missing _ => true
  end.

(** The cache has no nickname to show for [user]. *)
Definition plainNick (s : Session.t) (channel : Channel.t) (user : User.t)
  : bool :=
  nickOf s channel user =? User.Username user.

(** The content the channel pass of [ContentWithMoreMentionsReplaced]
    starts from: [m.Content] after the user loop and the role loop. *)
Definition afterRoles (m : Message.t) (s : Session.t) (channel : Channel.t)
  : string :=
  value (for_range (Message.MentionRoles m) (roleBody s channel)
           (value (for_range (Message.Mentions m) (userBody s channel)
                     (Message.Content m)))).

(** One turn of the user loop and of the role loop of
    [ContentWithMoreMentionsReplaced]: the content the loop body leaves. *)
Definition userTurn (s : Session.t) (channel : Channel.t)
                    (content : string) (user : User.t) : string :=
  value (userBody s channel content user).

Definition roleTurn (s : Session.t) (channel : Channel.t)
                    (content roleID : string) : string :=
  value (roleBody s channel content roleID).

(** The channel pass of [ContentWithMoreMentionsReplaced] on [content]. *)
Definition channelPass (s : Session.t) (content : string) : M string :=
  regexp.ReplaceAllStringFunc patternChannels content (channelRepl s).

(** The pattern matches [mention] from its first byte to its last. *)
Definition wholeMatch (mention : string) : bool :=
  match regexp.matchHere patternChannels mention with
  | Some n => Nat.eqb n (String.length mention)
  | None => false
  end.

(** [repl] on the arguments that satisfy [ok], [other] on the rest. *)
Definition onlyOn (ok : string -> bool) (repl other : string -> M string)
                  (mention : string) : M string :=
  if ok mention then repl mention else other mention.

(* ================================================================== *)
(** * Well-formed content

    The wire format of a content: text without the byte '<', and tokens
    "<@id>", "<@!id>", "<@&id>" and "<#id>" whose IDs are decimal. *)

Inductive segment : Type :=
| Text (t : string)
| UserMention (bang : bool) (id : string)
| RoleMention (id : string)
| ChannelMention (id : string).

Definition render (seg : segment) : string :=
  match seg with
  | Text t => t
  | UserMention false id => bareToken id
  | UserMention true id => bangToken id
  | RoleMention id => roleToken id
  | ChannelMention id => channelToken id
  end.

Fixpoint renderAll (segs : list segment) : string :=
  match segs with
  | [] => ""
  | seg :: segs' => render seg ++ renderAll segs'
  end.

Definition isDigit (c : ascii) : bool :=
  Nat.leb 48 (nat_of_ascii c) && Nat.leb (nat_of_ascii c) 57.

Fixpoint decimal (s : string) : bool :=
  match s with
  | "" => true
  | String c s' => isDigit c && decimal s'
  end.

Definition plain (s : string) : bool := negb (hasByte "<" s).

Definition wellFormed (seg : segment) : bool :=
  match seg with
  | Text t => plain t
  | UserMention _ id => decimal id
  | RoleMention id => decimal id
  | ChannelMention id => decimal id
  end.

(** The tokens of the user [id] become the texts [name] ("<@id>") and
    [shown] ("<@!id>"). *)
Definition substUser (id name shown : string) (seg : segment) : segment :=
  match seg with
  | UserMention bang id' =>
      if id' =? id then Text (if bang then shown else name) else seg
  | _ => seg
  end.

(** The token of the role [id] becomes the text [name]. *)
Definition substRole (id name : string) (seg : segment) : segment :=
  match seg with
  | RoleMention id' => if id' =? id then Text name else seg
  | _ => seg
  end.

(** The roles the role loop replaces the tokens of, in the order of
    [MentionRoles]: those found in the cache and mentionable. *)
Definition resolvedRoles (m : Message.t) (s : Session.t)
                         (channel : Channel.t) : list Role.t :=
  flat_map
    (fun roleID =>
       match State.Role_ (Session.State s) (Channel.GuildID channel)
               roleID with
       | Found role => if Role.Mentionable role then [role] else []
       | Missing _ => []
       end)
    (Message.MentionRoles m).

(** What [ContentWithMentionsReplaced] makes of a segment: a token of a
    user of [Mentions] becomes "@Username", for the first user of that
    ID. *)
Definition basicResolve (users : list User.t) (seg : segment) : segment :=
  match seg with
  | UserMention _ id =>
      match find (fun user => id =? User.ID user) users with
      | Some user => Text ("@" ++ User.Username user)
      | None => seg
      end
  | _ => seg
  end.

(** What the channel pass makes of a segment: the token of a channel
    that is in the cache and no voice channel becomes "#Name". *)
Definition resolveChannel (s : Session.t) (seg : segment) : segment :=
  match seg with
  | ChannelMention id =>
      match State.Channel_ (Session.State s) id with
      | Found found =>
          if ChannelType_eqb (Channel.Type_ found) ChannelTypeGuildVoice
          then seg
          else Text ("#" ++ Channel.Name found)
      | Missing _ => seg
      end
  | _ => seg
  end.

(** What [ContentWithMoreMentionsReplaced] makes of a segment: a token
    of a user of [Mentions] becomes "@Username" ("<@id>") or "@" and the
    nickname ("<@!id>"), for the first user of that ID; the token of a
    role of [MentionRoles] that is in the cache and mentionable becomes
    "@Name"; a channel token is resolved as by the channel pass. *)
Definition resolve (m : Message.t) (s : Session.t) (channel : Channel.t)
                   (seg : segment) : segment :=
  match seg with
  | Text _ => seg
  | UserMention bang id =>
      match find (fun user => id =? User.ID user) (Message.Mentions m) with
      | Some user =>
          Text ("@" ++ if bang then nickOf s channel user
                       else User.Username user)
      | None => seg
      end
  | RoleMention id =>
      match find (fun role => id =? Role.ID role)
              (resolvedRoles m s channel) with
      | Some role => Text ("@" ++ Role.Name role)
      | None => seg
      end
  | ChannelMention _ => resolveChannel s seg
  end.

(** The users and the roles whose names the resolvers insert: decimal
    IDs, and names without the byte '<'. *)
Definition basicUserOK (user : User.t) : bool :=
  decimal (User.ID user) && plain (User.Username user).

Definition userOK (s : Session.t) (channel : Channel.t) (user : User.t)
  : bool :=
  decimal (User.ID user) && plain (User.Username user)
  && plain (nickOf s channel user).

Definition roleOK (role : Role.t) : bool :=
  decimal (Role.ID role) && plain (Role.Name role).

(* ================================================================== *)
(** * [MessageFlags] and [MessageFlag] *)

(** [MessageFlagsCrossPosted MessageFlags = 1 << iota] and the constants
    that follow it in the block. *)
Definition MessageFlagsCrossPosted : Z := Z.shiftl 1 0.
Definition MessageFlagsIsCrossPosted : Z := Z.shiftl 1 1.
Definition MessageFlagsSupressEmbeds : Z := Z.shiftl 1 2.
Definition MessageFlagsSourceMessageDeleted : Z := Z.shiftl 1 3.
Definition MessageFlagsUrgent : Z := Z.shiftl 1 4.

(** [MessageFlagCrossposted MessageFlag = 1 << iota] and the constants
    that follow it in the block. *)
Definition MessageFlagCrossposted : Z := Z.shiftl 1 0.
Definition MessageFlagIsCrosspost : Z := Z.shiftl 1 1.
Definition MessageFlagSuppressEmbeds : Z := Z.shiftl 1 2.

(** The values of the [MessageFlags] block. *)
Definition allMessageFlags : list Z :=
  [MessageFlagsCrossPosted; MessageFlagsIsCrossPosted;
   MessageFlagsSupressEmbeds; MessageFlagsSourceMessageDeleted;
   MessageFlagsUrgent].

(** [f1 | f2 | ... | fn], the [Flags] of a message that has these
    features. *)
Definition combine (flags : list Z) : Z := fold_right Z.lor 0%Z flags.

(** The test the comment on [Message.Flags] describes: a bitwise AND
    between the flags and the flag. *)
Definition hasFlag (flags flag : Z) : bool :=
  negb (Z.eqb (Z.land flags flag) 0).

(* ================================================================== *)
(** * [MessageEdit] and its setters *)

Module MessageEdit.
(** [Content] is nil or points to a string of its own; [Embed] and
    [AllowedMentions] are nil or the address of a value the caller
    holds. *)
Record t : Type :=
  mk { Content : option string;
       Embed : option nat;
       AllowedMentions : option nat;
       ID : string;
       Channel : string }.
End MessageEdit.

(** The [MessageEdit] values allocated so far; a [*MessageEdit] is nil
    ([None]) or the position of one of them.  A position beyond them,
    which no Go pointer is, is treated like nil. *)
Definition Heap : Type := list MessageEdit.t.

(** [l] with [v] at position [n]. *)
Fixpoint update {A : Type} (l : list A) (n : nat) (v : A) : list A :=
  match l, n with
  | [], _ => []
  | _ :: l', O => v :: l'
  | x :: l', S n' => x :: update l' n' v
  end.

(** [&MessageEdit{Channel: channelID, ID: messageID}]: a new value, the
    fields not named being nil. *)
Definition NewMessageEdit (channelID messageID : string) (h : Heap)
  : option nat * Heap :=
  (Some (List.length h),
   (h ++ [ {| MessageEdit.Content := None;
              MessageEdit.Embed := None;
              MessageEdit.AllowedMentions := None;
              MessageEdit.ID := messageID;
              MessageEdit.Channel := channelID |} ])%list).

(** [m.Content = &str; return m].  On a nil receiver the assignment
    panics ([None]). *)
Definition SetContent (m : option nat) (str : string) (h : Heap)
  : option (option nat * Heap) :=
  match m with
  | None => None
  | Some p =>
      match nth_error h p with
      | None => None
      | Some e =>
          Some (m, update h p
                     {| MessageEdit.Content := Some str;
                        MessageEdit.Embed := MessageEdit.Embed e;
                        MessageEdit.AllowedMentions :=
                          MessageEdit.AllowedMentions e;
                        MessageEdit.ID := MessageEdit.ID e;
                        MessageEdit.Channel := MessageEdit.Channel e |})
      end
  end.

(** [m.Embed = embed; return m].  On a nil receiver the assignment
    panics ([None]). *)
Definition SetEmbed (m : option nat) (embed : option nat) (h : Heap)
  : option (option nat * Heap) :=
  match m with
  | None => None
  | Some p =>
      match nth_error h p with
      | None => None
      | Some e =>
          Some (m, update h p
                     {| MessageEdit.Content := MessageEdit.Content e;
                        MessageEdit.Embed := embed;
                        MessageEdit.AllowedMentions :=
                          MessageEdit.AllowedMentions e;
                        MessageEdit.ID := MessageEdit.ID e;
                        MessageEdit.Channel := MessageEdit.Channel e |})
      end
  end.

(** [a.f(x).g(y)] for two setters: the second is called on what the first
    returns. *)
Definition andThen (r : option (option nat * Heap))
                   (f : option nat -> Heap -> option (option nat * Heap))
  : option (option nat * Heap) :=
  match r with
  | Some (m, h) => f m h
  | None => None
  end.

(* ================================================================== *)
(** * Facts about the call log *)

Lemma value_ret {A : Type} (a : A) : value (ret a) = a.
Proof. reflexivity. Qed.

Lemma calls_ret {A : Type} (a : A) : calls (ret a) = [].
Proof. reflexivity. Qed.

Lemma value_bind {A B : Type} (m : M A) (f : A -> M B) :
  value (bind m f) = value (f (value m)).
Proof.
  destruct m as [a l]; unfold bind, value; simpl.
  now destruct (f a).
Qed.

Lemma calls_bind {A B : Type} (m : M A) (f : A -> M B) :
  calls (bind m f) = (calls m ++ calls (f (value m)))%list.
Proof.
  destruct m as [a l]; unfold bind, value, calls; simpl.
  now destruct (f a).
Qed.

Lemma M_eq {A : Type} (m : M A) : m = (value m, calls m).
Proof. now destruct m. Qed.

Lemma bind_ret {A B : Type} (m : M A) (g : A -> B) :
  bind m (fun a => ret (g a)) = (g (value m), calls m).
Proof.
  destruct m as [a l]; unfold bind, ret, value, calls; simpl.
  now rewrite app_nil_r.
Qed.

Create Rewrite HintDb log.

#[local] Hint Rewrite @value_ret @calls_ret @value_bind @calls_bind
  : log.

(* ================================================================== *)
(** * Facts about strings *)

Lemma append_assoc (a b c : string) : (a ++ b) ++ c = a ++ (b ++ c).
Proof. induction a as [|x a IH]; simpl; [reflexivity | now rewrite IH]. Qed.

Lemma append_empty_r (a : string) : a ++ "" = a.
Proof. induction a as [|x a IH]; simpl; [reflexivity | now rewrite IH]. Qed.

Lemma length_append (a b : string) :
  String.length (a ++ b) = String.length a + String.length b.
Proof. induction a as [|x a IH]; simpl; [reflexivity | now rewrite IH]. Qed.

Lemma prefix_append (a b : string) : String.prefix a (a ++ b) = true.
Proof.
  induction a as [|x a IH]; simpl; [now destruct b |].
  now destruct (ascii_dec x x).
Qed.

Lemma prefix_cons (x y : ascii) (a b : string) :
  String.prefix (String x a) (String y b)
  = Ascii.eqb x y && String.prefix a b.
Proof.
  simpl. destruct (ascii_dec x y) as [->|n].
  - now rewrite Ascii.eqb_refl.
  - apply Ascii.eqb_neq in n. now rewrite n.
Qed.

Lemma append_inv_head (pre x y : string) : pre ++ x = pre ++ y -> x = y.
Proof.
  induction pre as [|c pre IH]; cbn [append]; intros H; [exact H |].
  injection H as H. now apply IH.
Qed.

Lemma turned_neq (c : ascii) (y z : string) :
  c <> "<"%char -> turned c y z -> z <> y.
Proof.
  intros Hc (pre & a & b & -> & ->) H.
  apply append_inv_head in H. injection H as H _. contradiction.
Qed.

Lemma substring_append (a b : string) :
  substring 0 (String.length a) (a ++ b) = a.
Proof.
  induction a as [|x a IH]; simpl; [now destruct b | now rewrite IH].
Qed.

Lemma substring_dropBytes (n : nat) (s : string) :
  substring 0 n s ++ dropBytes n s = s.
Proof.
  revert s; induction n as [|n IH]; intros [|x s]; simpl; try reflexivity.
  now rewrite IH.
Qed.

Lemma slice_channelToken (id : string) :
  slice (channelToken id) 2 (String.length (channelToken id) - 1) = id.
Proof.
  unfold slice, channelToken; simpl.
  rewrite length_append; simpl.
  replace (String.length id + 1 - 1) with (String.length id) by lia.
  apply substring_append.
Qed.

(* ================================================================== *)
(** * Facts about the replacer *)

Section Replacer.

Variable r : strings.Replacer.

Lemma lookup_none (s : string) :
  strings.lookup r s false = None <-> beginsWith (map fst r) s = false.
Proof.
  unfold beginsWith.
  induction r as [|[old new] r' IH]; simpl; [tauto |].
  rewrite andb_true_r.
  destruct (strings.HasPrefix s old); simpl; [split; discriminate | exact IH].
Qed.

Lemma WriteString_skip (x post : string) :
  strings.WriteString r (String.length x) (x ++ post)
  = strings.WriteString r 0 post.
Proof. induction x as [|c x IH]; simpl; [reflexivity | exact IH]. Qed.

Lemma WriteString_copy (pre rest : string) :
  noneStartsIn (beginsWith (map fst r)) pre rest = true ->
  strings.WriteString r 0 (pre ++ rest) = pre ++ strings.WriteString r 0 rest.
Proof.
  induction pre as [|c pre IH]; intros H; [reflexivity |].
  cbn [noneStartsIn] in H. apply andb_true_iff in H as [H1 H2].
  apply negb_true_iff, lookup_none in H1.
  cbn [append strings.WriteString] in *. rewrite H1.
  now rewrite IH.
Qed.

Lemma WriteString_hit (old new post : string) :
  old <> "" ->
  strings.lookup r (old ++ post) false = Some (new, String.length old) ->
  strings.WriteString r 0 (old ++ post) = new ++ strings.WriteString r 0 post.
Proof.
  destruct old as [|c x]; [congruence |]. intros _ H.
  cbn [append strings.WriteString String.length] in *. rewrite H.
  now rewrite WriteString_skip.
Qed.

(** The leftmost old string is replaced and the scan goes on behind it. *)
Lemma Replace_leftmost (old new pre post : string) :
  old <> "" ->
  strings.lookup r (old ++ post) false = Some (new, String.length old) ->
  noneStartsIn (beginsWith (map fst r)) pre (old ++ post) = true ->
  strings.Replacer_Replace r (pre ++ old ++ post)
  = pre ++ new ++ strings.Replacer_Replace r post.
Proof.
  intros Hne Hhit Hpre. unfold strings.Replacer_Replace.
  rewrite WriteString_copy by exact Hpre.
  now rewrite (WriteString_hit old new post Hne Hhit).
Qed.

(** A string in which no old string occurs is returned as it is. *)
Lemma Replace_clean (s : string) :
  strings.lookup r "" false = None ->
  noneStartsIn (beginsWith (map fst r)) s "" = true ->
  strings.Replacer_Replace r s = s.
Proof.
  intros Hend Hs. unfold strings.Replacer_Replace.
  rewrite <- (append_empty_r s) at 1.
  rewrite WriteString_copy by exact Hs.
  cbn [strings.WriteString]. rewrite Hend. apply append_empty_r.
Qed.

End Replacer.

(** The replacer on vectors of Go's own replace_test.go (an empty old
    string of high and of low priority), and on old strings that are
    prefixes of one another. *)
Example Replacer_blank :
  strings.Replacer_Replace (strings.NewReplacer [("", "X")]) "aa" = "XaXaX".
Proof. reflexivity. Qed.

Example Replacer_blankHighPriority :
  strings.Replacer_Replace (strings.NewReplacer [("", "X"); ("o", "O")]) "oiio"
  = "XOXiXiXOX".
Proof. reflexivity. Qed.

Example Replacer_blankLowPriority :
  strings.Replacer_Replace (strings.NewReplacer [("o", "O"); ("", "X")]) "iooi"
  = "XiOOXiX".
Proof. reflexivity. Qed.

Example Replacer_argument_order :
  strings.Replacer_Replace
    (strings.NewReplacer [("a", "1"); ("aa", "2"); ("aaa", "3")]) "aaaa"
  = "1111"
  /\ strings.Replacer_Replace
       (strings.NewReplacer [("aaa", "3"); ("aa", "2"); ("a", "1")]) "aaaa"
     = "31".
Proof. split; reflexivity. Qed.

(** The channel pattern at the head of some strings. *)
Example patternChannels_heads :
  regexp.matchHere patternChannels "<#7> and" = Some 4
  /\ regexp.matchHere patternChannels "<#>" = Some 3
  /\ regexp.matchHere patternChannels "<#<#7>" = Some 6
  /\ regexp.matchHere patternChannels "<#7" = None
  /\ regexp.matchHere patternChannels "<@7>" = None.
Proof. repeat split. Qed.

(** The two tokens of one user never begin at the same byte. *)
Lemma prefix_shifted (id : string) (c : ascii) (post : string) :
  c <> ">"%char ->
  String.prefix (id ++ ">") (String c (id ++ ">" ++ post)) = false.
Proof.
  revert c; induction id as [|a id IH]; intros c Hc.
  - cbn [append]. rewrite prefix_cons.
    apply Ascii.eqb_neq in Hc. rewrite Ascii.eqb_sym in Hc. now rewrite Hc.
  - cbn [append]. rewrite prefix_cons.
    destruct (Ascii.eqb_spec a c) as [->|Hac]; [| reflexivity].
    cbn [andb]. now apply IH.
Qed.

Lemma bare_not_at_bang (id post : string) :
  strings.HasPrefix (bangToken id ++ post) (bareToken id) = false.
Proof.
  unfold strings.HasPrefix, bangToken, bareToken.
  cbn [append]. rewrite !prefix_cons. cbn [Ascii.eqb Bool.eqb andb].
  rewrite append_assoc. now apply prefix_shifted.
Qed.

Lemma lookup_bare (id name shown post : string) :
  strings.lookup [(bareToken id, name); (bangToken id, shown)]
    (bareToken id ++ post) false
  = Some (name, String.length (bareToken id)).
Proof.
  cbn [strings.lookup]. unfold strings.HasPrefix at 1.
  now rewrite prefix_append.
Qed.

Lemma lookup_bang (id name shown post : string) :
  strings.lookup [(bareToken id, name); (bangToken id, shown)]
    (bangToken id ++ post) false
  = Some (shown, String.length (bangToken id)).
Proof.
  cbn [strings.lookup]. rewrite bare_not_at_bang. cbn [andb].
  unfold strings.HasPrefix. now rewrite prefix_append.
Qed.

Lemma lookup_role (id name post : string) :
  strings.lookup [(roleToken id, name)] (roleToken id ++ post) false
  = Some (name, String.length (roleToken id)).
Proof.
  cbn [strings.lookup]. unfold strings.HasPrefix. now rewrite prefix_append.
Qed.

(* ================================================================== *)
(** * Facts about the channel pattern *)

Lemma matchHere_star_nil (c : ascii) (re : regexp.Regexp) :
  regexp.matchHere (regexp.StarNot c :: re) "" = regexp.matchHere re "".
Proof. reflexivity. Qed.

Lemma matchHere_star_cons (c a : ascii) (re : regexp.Regexp) (s : string) :
  regexp.matchHere (regexp.StarNot c :: re) (String a s)
  = if Ascii.eqb a c then regexp.matchHere re (String a s)
    else match regexp.matchHere (regexp.StarNot c :: re) s with
         | Some n => Some (S n)
         | None => regexp.matchHere re (String a s)
         end.
Proof. reflexivity. Qed.

Lemma matchHere_lit_cons (c a : ascii) (re : regexp.Regexp) (s : string) :
  regexp.matchHere (regexp.Lit c :: re) (String a s)
  = if Ascii.eqb a c then option_map S (regexp.matchHere re s) else None.
Proof. reflexivity. Qed.

(** The part of the pattern behind "<#": bytes other than '>', then '>'. *)
Lemma tail_matches (id rest : string) :
  hasByte ">" id = false ->
  regexp.matchHere [regexp.StarNot ">"; regexp.Lit ">"] (id ++ ">" ++ rest)
  = Some (String.length id + 1).
Proof.
  induction id as [|a id IH]; intros H.
  - reflexivity.
  - cbn [hasByte] in H. apply orb_false_iff in H as [Ha Hid].
    specialize (IH Hid).
    cbn [append String.length] in *. rewrite matchHere_star_cons, Ha.
    now rewrite IH.
Qed.

Lemma tail_matched (s : string) (n : nat) :
  regexp.matchHere [regexp.StarNot ">"; regexp.Lit ">"] s = Some n ->
  exists id rest,
    s = id ++ ">" ++ rest /\ hasByte ">" id = false
    /\ n = String.length id + 1.
Proof.
  revert n; induction s as [|a s IH]; intros n H.
  - discriminate H.
  - rewrite matchHere_star_cons in H.
    destruct (Ascii.eqb_spec a ">") as [->|Ha].
    + exists "", s. cbn in H. injection H as <-. now repeat split.
    + destruct (regexp.matchHere _ s) as [k|] eqn:E.
      * injection H as <-.
        destruct (IH k eq_refl) as (id & rest & -> & Hid & ->).
        exists (String a id), rest. repeat split.
        cbn [hasByte]. apply Ascii.eqb_neq in Ha. now rewrite Ha, Hid.
      * rewrite matchHere_lit_cons in H.
        apply Ascii.eqb_neq in Ha. rewrite Ha in H. discriminate H.
Qed.

Lemma patternChannels_matches (id rest : string) :
  hasByte ">" id = false ->
  regexp.matchHere patternChannels (channelToken id ++ rest)
  = Some (String.length (channelToken id)).
Proof.
  intros H. unfold patternChannels, channelToken.
  rewrite append_assoc. cbn [append].
  rewrite !matchHere_lit_cons. cbn [Ascii.eqb Bool.eqb andb].
  rewrite append_assoc, (tail_matches id rest H).
  cbn [option_map String.length]. rewrite length_append. reflexivity.
Qed.

Lemma patternChannels_matched (s : string) (n : nat) :
  regexp.matchHere patternChannels s = Some n ->
  exists id rest,
    s = channelToken id ++ rest /\ hasByte ">" id = false
    /\ n = String.length (channelToken id).
Proof.
  unfold patternChannels. intros H.
  destruct s as [|a [|b s]]; try discriminate H.
  - rewrite matchHere_lit_cons in H. now destruct (Ascii.eqb a "<").
  - rewrite !matchHere_lit_cons in H.
    destruct (Ascii.eqb_spec a "<") as [->|]; [| discriminate H].
    destruct (Ascii.eqb_spec b "#") as [->|]; [| discriminate H].
    destruct (regexp.matchHere _ s) as [k|] eqn:E; [| discriminate H].
    injection H as <-.
    destruct (tail_matched s k E) as (id & rest & -> & Hid & ->).
    exists id, rest. repeat split; [| exact Hid |].
    + unfold channelToken. rewrite append_assoc. cbn [append].
      now rewrite append_assoc.
    + unfold channelToken. cbn [append String.length].
      now rewrite length_append.
Qed.

(* ================================================================== *)
(** * Facts about [ReplaceAllStringFunc] *)

Section ReplaceAll.

Variable re : regexp.Regexp.
Variable repl : string -> M string.

Lemma matches_false (s : string) :
  matches re s = false <-> regexp.matchHere re s = None.
Proof.
  unfold matches. destruct (regexp.matchHere re s); split; congruence.
Qed.

Lemma replaceAll_skip (x post : string) :
  regexp.replaceAll re repl (String.length x) (x ++ post)
  = regexp.replaceAll re repl 0 post.
Proof. induction x as [|c x IH]; simpl; [reflexivity | exact IH]. Qed.

Lemma replaceAll_copy (pre rest : string) :
  noneStartsIn (matches re) pre rest = true ->
  regexp.replaceAll re repl 0 (pre ++ rest)
  = (pre ++ value (regexp.replaceAll re repl 0 rest),
     calls (regexp.replaceAll re repl 0 rest)).
Proof.
  induction pre as [|c pre IH]; intros H; [apply M_eq |].
  cbn [noneStartsIn] in H. apply andb_true_iff in H as [H1 H2].
  apply negb_true_iff, matches_false in H1.
  cbn [append regexp.replaceAll] in *. rewrite H1, (IH H2).
  now rewrite bind_ret.
Qed.

Lemma replaceAll_hit (tok post : string) :
  tok <> "" ->
  regexp.matchHere re (tok ++ post) = Some (String.length tok) ->
  regexp.replaceAll re repl 0 (tok ++ post)
  = (value (repl tok) ++ value (regexp.replaceAll re repl 0 post),
     (calls (repl tok) ++ calls (regexp.replaceAll re repl 0 post))%list).
Proof.
  destruct tok as [|c x]; [congruence |]. intros _ H.
  cbn [append regexp.replaceAll String.length] in *. rewrite H.
  change (String c (x ++ post)) with (String c x ++ post).
  change (S (String.length x)) with (String.length (String c x)).
  rewrite substring_append, replaceAll_skip.
  rewrite (M_eq (bind _ _)). autorewrite with log.
  now rewrite app_nil_r.
Qed.

(** The leftmost match is handed to [repl] first, and the scan goes on
    behind it. *)
Lemma ReplaceAll_leftmost (pre tok post : string) :
  tok <> "" ->
  regexp.matchHere re (tok ++ post) = Some (String.length tok) ->
  noneStartsIn (matches re) pre (tok ++ post) = true ->
  regexp.ReplaceAllStringFunc re (pre ++ tok ++ post) repl
  = (pre ++ value (repl tok)
       ++ value (regexp.ReplaceAllStringFunc re post repl),
     (calls (repl tok)
       ++ calls (regexp.ReplaceAllStringFunc re post repl))%list).
Proof.
  intros Hne Hhit Hpre. unfold regexp.ReplaceAllStringFunc.
  rewrite (replaceAll_copy _ _ Hpre), (replaceAll_hit _ _ Hne Hhit).
  reflexivity.
Qed.

(** When [repl] returns every match as it is, so does the whole scan. *)
Lemma replaceAll_inert (skip : nat) (src : string) :
  (forall mention, In mention (findAll re skip src) ->
                   value (repl mention) = mention) ->
  value (regexp.replaceAll re repl skip src) = dropBytes skip src.
Proof.
  revert skip; induction src as [|c src IH]; intros skip H.
  - now destruct skip.
  - destruct skip as [|k]; cbn [regexp.replaceAll findAll dropBytes] in *.
    + destruct (regexp.matchHere re (String c src)) as [[|n]|] eqn:E.
      * autorewrite with log. now rewrite (IH 0 H).
      * autorewrite with log. rewrite (H _ (or_introl eq_refl)).
        rewrite (IH n (fun x Hx => H x (or_intror Hx))).
        cbn [substring append]. now rewrite substring_dropBytes.
      * autorewrite with log. now rewrite (IH 0 H).
    + now apply IH.
Qed.

End ReplaceAll.

(* ================================================================== *)
(** * Facts about the loops and the closure *)

Lemma for_range_value {A : Type} (body : string -> A -> M string)
      (xs : list A) (content : string) :
  value (for_range xs body content)
  = fold_left (fun c x => value (body c x)) xs content.
Proof.
  revert content; induction xs as [|x xs IH]; intros content; simpl.
  - reflexivity.
  - now rewrite value_bind, IH.
Qed.

Lemma channelRepl_calls (s : Session.t) (id : string) :
  calls (channelRepl s (channelToken id)) = [CallChannel id].
Proof.
  unfold channelRepl. rewrite calls_bind, slice_channelToken.
  cbn [State.Channel calls value snd fst].
  destruct (State.Channel_ _ id) as [channel|err]; [| reflexivity].
  now destruct (ChannelType_eqb _ _).
Qed.

Lemma channelRepl_value (s : Session.t) (mention : string) :
  value (channelRepl s mention)
  = match State.Channel_ (Session.State s)
            (slice mention 2 (String.length mention - 1)) with
    | Found channel =>
        if ChannelType_eqb (Channel.Type_ channel) ChannelTypeGuildVoice
        then mention else "#" ++ Channel.Name channel
    | Missing _ => mention
    end.
Proof.
  unfold channelRepl. rewrite value_bind.
  cbn [State.Channel value fst].
  destruct (State.Channel_ _ _) as [channel|err]; [| reflexivity].
  now destruct (ChannelType_eqb _ _).
Qed.

Lemma channelRepl_unresolved (s : Session.t) (mention : string) :
  unresolvedChannel s mention = true ->
  value (channelRepl s mention) = mention.
Proof.
  unfold unresolvedChannel. rewrite channelRepl_value.
  destruct (State.Channel_ _ _) as [channel|err]; [| reflexivity].
  now intros ->.
Qed.

Lemma ChannelType_eqb_eq (a b : ChannelType) :
  ChannelType_eqb a b = true <-> a = b.
Proof. destruct a, b; simpl; split; congruence. Qed.

(** With the cache enabled and the message's channel found, the result is
    the three passes one after the other, and the error is nil. *)
Lemma enhanced_passes (m : Message.t) (s : Session.t) (channel : Channel.t) :
  Session.StateEnabled s = true ->
  State.Channel_ (Session.State s) (Message.ChannelID m) = Found channel ->
  value (ContentWithMoreMentionsReplaced m s)
  = (value (regexp.ReplaceAllStringFunc patternChannels
       (value (for_range (Message.MentionRoles m) (roleBody s channel)
          (value (for_range (Message.Mentions m) (userBody s channel)
             (Message.Content m)))))
       (channelRepl s)),
     None).
Proof.
  intros Hon Hch. unfold ContentWithMoreMentionsReplaced.
  rewrite Hon. cbn [negb]. rewrite value_bind.
  cbn [State.Channel value fst]. rewrite Hch.
  now autorewrite with log.
Qed.

(** With the cache enabled and the message's channel missing, the result
    is the basic one with the lookup's error. *)
Lemma enhanced_missing
      (m : Message.t) (s : Session.t) (err : error) :
  Session.StateEnabled s = true ->
  State.Channel_ (Session.State s) (Message.ChannelID m) = Missing err ->
  ContentWithMoreMentionsReplaced m s
  = (ContentWithMentionsReplaced m, Some err,
     [CallChannel (Message.ChannelID m)]).
Proof.
  intros Hon Hch. unfold ContentWithMoreMentionsReplaced.
  rewrite Hon. cbn [negb]. unfold State.Channel. rewrite Hch.
  reflexivity.
Qed.

(* ================================================================== *)
(** * The properties *)

(** C9. [Reference] is the projection of the message's [GuildID],
    [ChannelID] and [ID]: it is a total function of the message alone, so
    it looks nothing up, validates nothing and cannot fail. *)
Theorem Reference_projection (m : Message.t) :
  MessageReference.GuildID (Reference m) = Message.GuildID m
  /\ MessageReference.ChannelID (Reference m) = Message.ChannelID m
  /\ MessageReference.MessageID (Reference m) = Message.ID m.
Proof. repeat split. Qed.

(** C8. With [Content] "hi <@42> and <@!42>" and the one mentioned user
    42 named alice, [ContentWithMentionsReplaced] returns
    "hi @alice and @alice". *)
Theorem basic_replaces_both_forms :
  ContentWithMentionsReplaced
    {| Message.ID := "1"; Message.ChannelID := "10"; Message.GuildID := "100";
       Message.Content := "hi <@42> and <@!42>";
       Message.MentionRoles := [];
       Message.Mentions := [ {| User.ID := "42"; User.Username := "alice" |} ] |}
  = "hi @alice and @alice".
Proof. reflexivity. Qed.

(** C3. With the cache disabled, [ContentWithMoreMentionsReplaced] returns
    the string [ContentWithMentionsReplaced] returns, a nil error, and
    calls none of [Channel], [Member] and [Role]. *)
Theorem disabled_state_is_basic (m : Message.t) (s : Session.t) :
  Session.StateEnabled s = false ->
  ContentWithMoreMentionsReplaced m s
  = (ContentWithMentionsReplaced m, None, []).
Proof.
  intros Hoff. unfold ContentWithMoreMentionsReplaced.
  now rewrite Hoff.
Qed.

Lemma disabled_state_is_basic_witness :
  ContentWithMoreMentionsReplaced
    (Sample.message "10" "hi <@42> and <@!42> in <#7>" ["5"] [Sample.alice])
    Sample.sessionOff
  = ("hi @alice and @alice in <#7>", None, []).
Proof.
  exact (disabled_state_is_basic
           (Sample.message "10" "hi <@42> and <@!42> in <#7>" ["5"]
              [Sample.alice])
           Sample.sessionOff eq_refl).
Defined.

(** C1, as the code has it.  When the cache is enabled and the lookup of
    the message's channel fails, [ContentWithMoreMentionsReplaced] returns
    the string [ContentWithMentionsReplaced] returns together with the
    error of that lookup, after this one call to the cache. *)
Theorem missing_channel_returns_basic_and_error
        (m : Message.t) (s : Session.t) (err : error) :
  Session.StateEnabled s = true ->
  State.Channel_ (Session.State s) (Message.ChannelID m) = Missing err ->
  ContentWithMoreMentionsReplaced m s
  = (ContentWithMentionsReplaced m, Some err,
     [CallChannel (Message.ChannelID m)]).
Proof.
  intros Hon Hch. unfold ContentWithMoreMentionsReplaced.
  rewrite Hon. cbn [negb].
  rewrite (M_eq (bind _ _)), value_bind, calls_bind.
  cbn [State.Channel value calls fst snd]. rewrite Hch.
  reflexivity.
Qed.

Lemma missing_channel_returns_basic_and_error_witness :
  ContentWithMoreMentionsReplaced
    (Sample.message "11" "hi <@42> in <#7>" [] [Sample.alice]) Sample.session
  = ("hi @alice in <#7>", Some Sample.ErrStateNotFound, [CallChannel "11"]).
Proof.
  exact (missing_channel_returns_basic_and_error
           (Sample.message "11" "hi <@42> in <#7>" [] [Sample.alice])
           Sample.session Sample.ErrStateNotFound eq_refl eq_refl).
Defined.

(** C1, as the specification words it, fails: channel 11 is not in the
    cache, and the error returned for a message in channel 11 is not
    nil. *)
Lemma missing_channel_error_is_not_nil :
  Session.StateEnabled Sample.session = true
  /\ State.Channel_ (Session.State Sample.session)
       (Message.ChannelID (Sample.message "11" "hi" [] []))
     = Missing Sample.ErrStateNotFound
  /\ snd (value (ContentWithMoreMentionsReplaced
                   (Sample.message "11" "hi" [] []) Sample.session))
     <> None.
Proof. repeat split. cbn. discriminate. Qed.

(** The channel pass turns the '<' of the first token it resolves into
    '#'. *)
Lemma replaceAll_resolved (s : Session.t) (skip : nat) (src : string) :
  forallb (unresolvedChannel s) (findAll patternChannels skip src) = false ->
  turned "#" (dropBytes skip src)
    (value (regexp.replaceAll patternChannels (channelRepl s) skip src)).
Proof.
  revert skip; induction src as [|c src IH]; intros skip H.
  - now destruct skip.
  - destruct skip as [|k]; cbn [regexp.replaceAll findAll dropBytes] in *;
      [| now apply IH].
    destruct (regexp.matchHere patternChannels (String c src))
      as [[|n]|] eqn:E.
    + destruct (IH 0 H) as (pre & a & b & Hy & Hz). cbn [dropBytes] in Hy.
      autorewrite with log. exists (String c pre), a, b.
      cbn [append]. now rewrite <- Hy, <- Hz.
    + autorewrite with log. cbn [forallb] in H.
      destruct (unresolvedChannel s (substring 0 (S n) (String c src)))
        eqn:U.
      * rewrite (channelRepl_unresolved s _ U).
        destruct (IH n H) as (pre & a & b & Hy & Hz).
        exists (substring 0 (S n) (String c src) ++ pre), a, b.
        rewrite !append_assoc, <- Hy, <- Hz. split; [| reflexivity].
        cbn [substring append]. now rewrite substring_dropBytes.
      * destruct (patternChannels_matched _ _ E) as (id & rest & Hsrc & _).
        unfold channelToken in Hsrc. cbn [append] in Hsrc.
        injection Hsrc as -> _.
        unfold unresolvedChannel in U. rewrite channelRepl_value.
        destruct (State.Channel_ _ _) as [channel|err]; [| discriminate U].
        rewrite U. cbn [append].
        exists "", src. eexists. split; reflexivity.
    + destruct (IH 0 H) as (pre & a & b & Hy & Hz). cbn [dropBytes] in Hy.
      autorewrite with log. exists (String c pre), a, b.
      cbn [append]. now rewrite <- Hy, <- Hz.
Qed.

(** C2, as the code has it.  For a message with no [Mentions] and no
    [MentionRoles], [ContentWithMentionsReplaced] returns [Content]
    unchanged, and so does [ContentWithMoreMentionsReplaced] provided
    that, when the cache is enabled and the message's channel is found,
    every "<#...>" token of [Content] misses the cache or names a voice
    channel; when one of them names another channel of the cache, the
    string returned is not [Content]. *)
Theorem no_mentions_content_unchanged (m : Message.t) (s : Session.t) :
  Message.Mentions m = [] ->
  Message.MentionRoles m = [] ->
  ((Session.StateEnabled s = true ->
    forall channel,
      State.Channel_ (Session.State s) (Message.ChannelID m) = Found channel ->
      forallb (unresolvedChannel s)
        (FindAllString patternChannels (Message.Content m)) = true) ->
   ContentWithMentionsReplaced m = Message.Content m
   /\ fst (value (ContentWithMoreMentionsReplaced m s)) = Message.Content m)
  /\
  (Session.StateEnabled s = true ->
   forall channel,
     State.Channel_ (Session.State s) (Message.ChannelID m) = Found channel ->
     forallb (unresolvedChannel s)
       (FindAllString patternChannels (Message.Content m)) = false ->
     fst (value (ContentWithMoreMentionsReplaced m s)) <> Message.Content m).
Proof.
  intros Hu Hr. split.
  2:{ intros Hon channel Hch Hres.
      rewrite (enhanced_passes m s channel Hon Hch), Hu, Hr.
      cbn [for_range value ret fst].
      apply (turned_neq "#"); [discriminate |].
      exact (replaceAll_resolved s 0 (Message.Content m) Hres). }
  intros Hc.
  assert (Hbasic : ContentWithMentionsReplaced m = Message.Content m)
    by (unfold ContentWithMentionsReplaced; now rewrite Hu).
  split; [exact Hbasic |].
  destruct (Session.StateEnabled s) eqn:Hon.
  - destruct (State.Channel_ (Session.State s) (Message.ChannelID m))
      as [channel|err] eqn:Hch.
    + rewrite (enhanced_passes m s channel Hon Hch), Hu, Hr.
      cbn [for_range value ret fst]. unfold regexp.ReplaceAllStringFunc.
      rewrite replaceAll_inert; [reflexivity |].
      intros mention Hin. apply channelRepl_unresolved.
      specialize (Hc eq_refl channel eq_refl).
      rewrite forallb_forall in Hc. now apply Hc.
    + now rewrite (enhanced_missing m s err Hon Hch).
  - unfold ContentWithMoreMentionsReplaced. now rewrite Hon.
Qed.

Lemma no_mentions_content_unchanged_witness :
  ContentWithMentionsReplaced (Sample.message "10" "see <#8> and <#9>" [] [])
  = "see <#8> and <#9>"
  /\ fst (value (ContentWithMoreMentionsReplaced
                   (Sample.message "10" "see <#8> and <#9>" [] [])
                   Sample.session))
     = "see <#8> and <#9>"
  /\ fst (value (ContentWithMoreMentionsReplaced
                   (Sample.message "10" "see <#8> and <#7>" [] [])
                   Sample.session))
     <> "see <#8> and <#7>".
Proof.
  refine (conj (proj1 _) (conj (proj2 _) _)).
  - exact (proj1 (no_mentions_content_unchanged
                    (Sample.message "10" "see <#8> and <#9>" [] [])
                    Sample.session eq_refl eq_refl)
             (fun _ _ _ => eq_refl)).
  - exact (proj1 (no_mentions_content_unchanged
                    (Sample.message "10" "see <#8> and <#9>" [] [])
                    Sample.session eq_refl eq_refl)
             (fun _ _ _ => eq_refl)).
  - exact (proj2 (no_mentions_content_unchanged
                    (Sample.message "10" "see <#8> and <#7>" [] [])
                    Sample.session eq_refl eq_refl)
             eq_refl Sample.lobby eq_refl eq_refl).
Defined.

(** C2, as the specification words it, fails: a message with no
    [Mentions] and no [MentionRoles] whose [Content] is "<#7>" comes back
    as "#general" when channel 7 is a text channel of the cache. *)
Lemma no_mentions_channel_token_rewritten :
  Message.Mentions (Sample.message "10" "<#7>" [] []) = []
  /\ Message.MentionRoles (Sample.message "10" "<#7>" [] []) = []
  /\ fst (value (ContentWithMoreMentionsReplaced
                   (Sample.message "10" "<#7>" [] []) Sample.session))
     <> Message.Content (Sample.message "10" "<#7>" [] []).
Proof. repeat split. cbn. discriminate. Qed.

Lemma userBody_value (s : Session.t) (channel : Channel.t)
      (content : string) (user : User.t) :
  value (userBody s channel content user)
  = strings.Replacer_Replace
      [(bareToken (User.ID user), "@" ++ User.Username user);
       (bangToken (User.ID user), "@" ++ nickOf s channel user)]
      content.
Proof.
  unfold userBody, nickOf. rewrite value_bind.
  cbn [State.Member value fst].
  destruct (State.Member_ _ _ _) as [member|err]; [| reflexivity].
  now destruct (Member.Nick member =? "").
Qed.

Lemma userBody_bare (s : Session.t) (channel : Channel.t) (user : User.t)
      (pre post : string) :
  noneStartsIn (beginsWith (userTokens user)) pre
    (bareToken (User.ID user) ++ post) = true ->
  value (userBody s channel (pre ++ bareToken (User.ID user) ++ post) user)
  = pre ++ ("@" ++ User.Username user)
      ++ value (userBody s channel post user).
Proof.
  intros Hpre. rewrite !userBody_value.
  apply Replace_leftmost; [discriminate | apply lookup_bare | exact Hpre].
Qed.

Lemma userBody_bang (s : Session.t) (channel : Channel.t) (user : User.t)
      (pre post : string) :
  noneStartsIn (beginsWith (userTokens user)) pre
    (bangToken (User.ID user) ++ post) = true ->
  value (userBody s channel (pre ++ bangToken (User.ID user) ++ post) user)
  = pre ++ ("@" ++ nickOf s channel user)
      ++ value (userBody s channel post user).
Proof.
  intros Hpre. rewrite !userBody_value.
  apply Replace_leftmost; [discriminate | apply lookup_bang | exact Hpre].
Qed.

Lemma roleBody_value (s : Session.t) (channel : Channel.t)
      (content roleID : string) :
  value (roleBody s channel content roleID)
  = match State.Role_ (Session.State s) (Channel.GuildID channel) roleID with
    | Found role =>
        if Role.Mentionable role
        then strings.Replace content (roleToken (Role.ID role))
               ("@" ++ Role.Name role)
        else content
    | Missing _ => content
    end.
Proof.
  unfold roleBody. rewrite value_bind. cbn [State.Role value fst].
  destruct (State.Role_ _ _ _) as [role|err]; [| reflexivity].
  now destruct (Role.Mentionable role).
Qed.

Lemma fold_left_fixed {A : Type} (f : string -> A -> string)
      (xs : list A) (y : string) :
  (forall x, In x xs -> f y x = y) -> fold_left f xs y = y.
Proof.
  induction xs as [|x xs IH]; intros H; simpl; [reflexivity |].
  rewrite (H x (or_introl eq_refl)).
  apply IH. intros x' Hx'. apply H. now right.
Qed.

(** Where [hit] holds somewhere in [pre], there is a first such byte. *)
Lemma first_hit (hit : string -> bool) (pre rest : string) :
  noneStartsIn hit pre rest = false ->
  exists p1 c p2,
    pre = p1 ++ String c p2
    /\ noneStartsIn hit p1 (String c p2 ++ rest) = true
    /\ hit (String c p2 ++ rest) = true.
Proof.
  induction pre as [|c pre IH]; cbn [noneStartsIn]; intros H.
  - discriminate H.
  - destruct (hit (String c pre ++ rest)) eqn:E.
    + exists "", c, pre. now repeat split.
    + cbn [negb andb] in H.
      destruct (IH H) as (p1 & c' & p2 & -> & Hp1 & Hhit).
      exists (String c p1), c', p2. repeat split; [| exact Hhit].
      cbn [noneStartsIn append] in E |- *.
      rewrite append_assoc in E. cbn [append] in E. now rewrite E.
Qed.

(** A token of a user begins with '<', and its replacement with '@'. *)
Lemma basicStep_hit (user : User.t) (c : ascii) (s : string) :
  beginsWith (userTokens user) (String c s) = true ->
  c = "<"%char /\ exists b, basicStep (String c s) user = String "@" b.
Proof.
  unfold beginsWith, userTokens, basicStep, strings.Replacer_Replace,
    strings.NewReplacer.
  cbn [existsb]. rewrite orb_false_r. intros H.
  assert (Hc : c = "<"%char).
  { apply orb_true_iff in H as [H|H];
      unfold strings.HasPrefix, bareToken, bangToken in H;
      cbn [append] in H; rewrite prefix_cons in H;
      apply andb_true_iff in H as [H _];
      now apply Ascii.eqb_eq in H. }
  split; [exact Hc |].
  cbn [strings.WriteString strings.lookup].
  change ("<@" ++ User.ID user ++ ">") with (bareToken (User.ID user)).
  change ("<@!" ++ User.ID user ++ ">") with (bangToken (User.ID user)).
  destruct (strings.HasPrefix (String c s) (bareToken (User.ID user))) eqn:E1.
  - cbn. eexists. reflexivity.
  - cbn [orb] in H. rewrite H. cbn. eexists. reflexivity.
Qed.

Lemma basicStep_at (user : User.t) (b : string) :
  basicStep (String "@" b) user = String "@" (basicStep b user).
Proof. reflexivity. Qed.

Lemma basicStep_copy (user : User.t) (pre rest : string) :
  noneStartsIn (beginsWith (userTokens user)) pre rest = true ->
  basicStep (pre ++ rest) user = pre ++ basicStep rest user.
Proof. intros H. unfold basicStep. now apply WriteString_copy. Qed.

Lemma basicStep_clean (user : User.t) (y : string) :
  noneStartsIn (beginsWith (userTokens user)) y "" = true ->
  basicStep y user = y.
Proof. intros H. unfold basicStep. now apply Replace_clean. Qed.

(** A turn of the loop that finds a token turns its '<' into '@', and no
    later turn gives the '<' back. *)
Lemma basicStep_dirty (user : User.t) (y : string) :
  noneStartsIn (beginsWith (userTokens user)) y "" = false ->
  turned "@" y (basicStep y user).
Proof.
  intros H. destruct (first_hit _ _ _ H) as (p1 & c & p2 & -> & Hp1 & Hhit).
  rewrite append_empty_r in Hp1, Hhit.
  destruct (basicStep_hit user c p2 Hhit) as [-> [b Hb]].
  exists p1, p2, b. split; [reflexivity |].
  now rewrite (basicStep_copy user p1 _ Hp1), Hb.
Qed.

Lemma basicStep_turned (user : User.t) (y z : string) :
  turned "@" y z -> turned "@" y (basicStep z user).
Proof.
  intros (pre & a & b & -> & ->).
  destruct (noneStartsIn (beginsWith (userTokens user)) pre (String "@" b))
    eqn:E.
  - exists pre, a, (basicStep b user). split; [reflexivity |].
    now rewrite (basicStep_copy user pre _ E), basicStep_at.
  - destruct (first_hit _ _ _ E) as (p1 & c & p2 & -> & Hp1 & Hhit).
    cbn [append] in Hp1, Hhit.
    destruct (basicStep_hit user c _ Hhit) as [-> [b' Hb]].
    exists p1, (p2 ++ String "<" a), b'.
    rewrite !append_assoc. cbn [append]. split; [reflexivity |].
    now rewrite (basicStep_copy user p1 _ Hp1), Hb.
Qed.

Lemma fold_basicStep_turned (users : list User.t) (y z : string) :
  turned "@" y z -> turned "@" y (fold_left basicStep users z).
Proof.
  revert z; induction users as [|user users IH]; intros z H; simpl.
  - exact H.
  - now apply IH, basicStep_turned.
Qed.

Lemma fold_basicStep_fixed (users : list User.t) (y : string) :
  fold_left basicStep users y = y <->
  forallb (fun user => noneStartsIn (beginsWith (userTokens user)) y "")
    users = true.
Proof.
  rewrite forallb_forall. split.
  - induction users as [|user users IH]; intros H u Hin; [destruct Hin |].
    cbn [fold_left] in H.
    destruct (noneStartsIn (beginsWith (userTokens user)) y "") eqn:E.
    + rewrite (basicStep_clean user y E) in H.
      destruct Hin as [<-|Hin]; [exact E | now apply IH].
    + apply basicStep_dirty in E.
      apply (fold_basicStep_turned users), turned_neq in E;
        [contradiction | discriminate].
  - intros H. apply fold_left_fixed.
    intros user Hin. now apply basicStep_clean, H.
Qed.

(** C7, as the code has it.  When the string [ContentWithMentionsReplaced]
    returns holds no "<@ID>" and no "<@!ID>" of a mentioned user, applying
    the replacement to it again, with the same [Mentions], returns it
    unchanged; and a second application returns it unchanged only then. *)
Theorem basic_idempotent_without_leftover (m : Message.t) :
  (forallb
     (fun user =>
        noneStartsIn (beginsWith (userTokens user))
          (ContentWithMentionsReplaced m) "")
     (Message.Mentions m) = true ->
   ContentWithMentionsReplaced (withContent m (ContentWithMentionsReplaced m))
   = ContentWithMentionsReplaced m)
  /\
  (ContentWithMentionsReplaced (withContent m (ContentWithMentionsReplaced m))
   = ContentWithMentionsReplaced m ->
   forallb
     (fun user =>
        noneStartsIn (beginsWith (userTokens user))
          (ContentWithMentionsReplaced m) "")
     (Message.Mentions m) = true).
Proof.
  split; intros H;
    apply (fold_basicStep_fixed (Message.Mentions m)
             (ContentWithMentionsReplaced m));
    exact H.
Qed.

Lemma basic_idempotent_without_leftover_witness :
  ContentWithMentionsReplaced
    (withContent
       (Sample.message "10" "hi <@42> and <@!42>" [] [Sample.alice])
       (ContentWithMentionsReplaced
          (Sample.message "10" "hi <@42> and <@!42>" [] [Sample.alice])))
  = ContentWithMentionsReplaced
      (Sample.message "10" "hi <@42> and <@!42>" [] [Sample.alice])
  /\
  forallb
    (fun user =>
       noneStartsIn (beginsWith (userTokens user))
         (ContentWithMentionsReplaced (Sample.message "10" "plain" [] [Sample.bob]))
         "")
    (Message.Mentions (Sample.message "10" "plain" [] [Sample.bob])) = true.
Proof.
  split.
  - exact (proj1 (basic_idempotent_without_leftover
                    (Sample.message "10" "hi <@42> and <@!42>" []
                       [Sample.alice]))
             eq_refl).
  - exact (proj2 (basic_idempotent_without_leftover
                    (Sample.message "10" "plain" [] [Sample.bob]))
             eq_refl).
Defined.

(** C7, as the specification words it, fails: for the user 42 named 42
    and the content "<<@42>>" the first application returns "<@42>" and
    the second "@42". *)
Lemma basic_not_idempotent :
  ContentWithMentionsReplaced
    (Sample.message "10" "<<@42>>" [] [User.mk "42" "42"])
  = "<@42>"
  /\
  ContentWithMentionsReplaced
    (withContent (Sample.message "10" "<<@42>>" [] [User.mk "42" "42"])
       (ContentWithMentionsReplaced
          (Sample.message "10" "<<@42>>" [] [User.mk "42" "42"])))
  <> ContentWithMentionsReplaced
       (Sample.message "10" "<<@42>>" [] [User.mk "42" "42"]).
Proof. split; [reflexivity |]. cbn. discriminate. Qed.

(* ================================================================== *)
(** * Further properties of the two resolvers *)

Lemma for_range_calls {A : Type} (body : string -> A -> M string)
      (g : A -> Call) (xs : list A) (content : string) :
  (forall c x, calls (body c x) = [g x]) ->
  calls (for_range xs body content) = map g xs.
Proof.
  intros Hbody. revert content.
  induction xs as [|x xs IH]; intros content; cbn [for_range map].
  - reflexivity.
  - now rewrite calls_bind, Hbody, IH.
Qed.

Lemma userBody_calls (s : Session.t) (channel : Channel.t)
      (content : string) (user : User.t) :
  calls (userBody s channel content user)
  = [CallMember (Channel.GuildID channel) (User.ID user)].
Proof. unfold userBody. now rewrite calls_bind. Qed.

Lemma roleBody_calls (s : Session.t) (channel : Channel.t)
      (content roleID : string) :
  calls (roleBody s channel content roleID)
  = [CallRole (Channel.GuildID channel) roleID].
Proof.
  unfold roleBody. rewrite calls_bind. cbn [State.Role calls value fst snd].
  destruct (State.Role_ _ _ _) as [role|err]; [| reflexivity].
  now destruct (Role.Mentionable role).
Qed.

Lemma channelRepl_calls_any (s : Session.t) (mention : string) :
  calls (channelRepl s mention)
  = [CallChannel (slice mention 2 (String.length mention - 1))].
Proof.
  unfold channelRepl. rewrite calls_bind.
  cbn [State.Channel calls value fst snd].
  destruct (State.Channel_ _ _) as [channel|err]; [| reflexivity].
  now destruct (ChannelType_eqb _ _).
Qed.

Lemma replaceAll_calls (re : regexp.Regexp) (repl : string -> M string)
      (g : string -> Call) (skip : nat) (src : string) :
  (forall mention, calls (repl mention) = [g mention]) ->
  calls (regexp.replaceAll re repl skip src) = map g (findAll re skip src).
Proof.
  intros Hrepl. revert skip.
  induction src as [|c src IH]; intros skip; [reflexivity |].
  destruct skip as [|k]; cbn [regexp.replaceAll findAll]; [| apply IH].
  destruct (regexp.matchHere re (String c src)) as [[|n]|].
  - autorewrite with log. rewrite IH. apply app_nil_r.
  - autorewrite with log. rewrite Hrepl, IH, app_nil_r. reflexivity.
  - autorewrite with log. rewrite IH. apply app_nil_r.
Qed.

Lemma enhanced_found_calls (m : Message.t) (s : Session.t)
      (channel : Channel.t) :
  Session.StateEnabled s = true ->
  State.Channel_ (Session.State s) (Message.ChannelID m) = Found channel ->
  calls (ContentWithMoreMentionsReplaced m s)
  = (CallChannel (Message.ChannelID m)
       :: map (fun user =>
                 CallMember (Channel.GuildID channel) (User.ID user))
            (Message.Mentions m)
       ++ map (CallRole (Channel.GuildID channel)) (Message.MentionRoles m)
       ++ map (fun mention =>
                 CallChannel (slice mention 2 (String.length mention - 1)))
            (FindAllString patternChannels (afterRoles m s channel)))%list.
Proof.
  intros Hon Hch. unfold ContentWithMoreMentionsReplaced.
  rewrite Hon. cbn [negb]. rewrite calls_bind.
  cbn [State.Channel value calls fst snd]. rewrite Hch.
  autorewrite with log.
  rewrite (for_range_calls (userBody s channel)
             (fun user => CallMember (Channel.GuildID channel) (User.ID user)))
    by apply userBody_calls.
  rewrite (for_range_calls (roleBody s channel)
             (CallRole (Channel.GuildID channel)))
    by apply roleBody_calls.
  unfold regexp.ReplaceAllStringFunc.
  rewrite (replaceAll_calls patternChannels (channelRepl s)
             (fun mention =>
                CallChannel (slice mention 2 (String.length mention - 1))))
    by apply channelRepl_calls_any.
  cbn [app]. now rewrite app_nil_r.
Qed.

(** X1. With the cache enabled and the message's channel found,
    [ContentWithMoreMentionsReplaced] calls the cache in this order: once
    [Channel] for the message's channel, then [Member] once for each user
    of [Mentions], then [Role] once for each ID of [MentionRoles], then
    [Channel] once for each match of the pattern in the content the two
    loops produced, with the bytes between "<#" and ">" as the ID; and it
    makes no other call. *)
Theorem enhanced_call_sequence (m : Message.t) (s : Session.t)
        (channel : Channel.t) :
  Session.StateEnabled s = true ->
  State.Channel_ (Session.State s) (Message.ChannelID m) = Found channel ->
  calls (ContentWithMoreMentionsReplaced m s)
  = (CallChannel (Message.ChannelID m)
       :: map (fun user =>
                 CallMember (Channel.GuildID channel) (User.ID user))
            (Message.Mentions m)
       ++ map (CallRole (Channel.GuildID channel)) (Message.MentionRoles m)
       ++ map (fun mention =>
                 CallChannel (slice mention 2 (String.length mention - 1)))
            (FindAllString patternChannels (afterRoles m s channel)))%list
  /\ List.length (calls (ContentWithMoreMentionsReplaced m s))
     = 1 + List.length (Message.Mentions m)
       + List.length (Message.MentionRoles m)
       + List.length (FindAllString patternChannels (afterRoles m s channel)).
Proof.
  intros Hon Hch. rewrite (enhanced_found_calls m s channel Hon Hch).
  split; [reflexivity |].
  cbn [List.length]. rewrite !length_app, !length_map. lia.
Qed.

Lemma enhanced_call_sequence_witness :
  calls (ContentWithMoreMentionsReplaced
           (Sample.message "10" "<@42> <@&5> <#7> <#x>" ["5"; "9"]
              [Sample.alice; Sample.bob])
           Sample.session)
  = [CallChannel "10"; CallMember "100" "42"; CallMember "100" "43";
     CallRole "100" "5"; CallRole "100" "9";
     CallChannel "7"; CallChannel "x"]
  /\ List.length
       (calls (ContentWithMoreMentionsReplaced
                 (Sample.message "10" "<@42> <@&5> <#7> <#x>" ["5"; "9"]
                    [Sample.alice; Sample.bob])
                 Sample.session))
     = 7.
Proof.
  exact (enhanced_call_sequence
           (Sample.message "10" "<@42> <@&5> <#7> <#x>" ["5"; "9"]
              [Sample.alice; Sample.bob])
           Sample.session Sample.lobby eq_refl eq_refl).
Defined.

(** X2. The error [ContentWithMoreMentionsReplaced] returns is the error
    of the lookup of the message's channel, and nothing else: it is
    non-nil exactly when the cache is enabled and that lookup fails. *)
Theorem enhanced_error_iff (m : Message.t) (s : Session.t) (err : error) :
  snd (value (ContentWithMoreMentionsReplaced m s)) = Some err
  <-> Session.StateEnabled s = true
      /\ State.Channel_ (Session.State s) (Message.ChannelID m) = Missing err.
Proof.
  destruct (Session.StateEnabled s) eqn:Hon.
  - destruct (State.Channel_ (Session.State s) (Message.ChannelID m))
      as [channel|err'] eqn:Hch.
    + rewrite (enhanced_passes m s channel Hon Hch). cbn [snd].
      split; [discriminate | intros [_ H]; discriminate H].
    + rewrite (enhanced_missing m s err' Hon Hch). cbn [value fst snd].
      split; [intros [= ->]; now split | intros [_ [= ->]]; reflexivity].
  - unfold ContentWithMoreMentionsReplaced. rewrite Hon. cbn.
    split; [discriminate | intros [H _]; discriminate H].
Qed.

Lemma findAll_well_formed (skip : nat) (src mention : string) :
  In mention (findAll patternChannels skip src) ->
  exists id,
    mention = channelToken id /\ hasByte ">" id = false.
Proof.
  revert skip; induction src as [|c src IH]; intros skip H; [destruct H |].
  destruct skip as [|k]; cbn [findAll] in H; [| exact (IH k H)].
  destruct (regexp.matchHere patternChannels (String c src))
    as [[|n]|] eqn:E; try exact (IH 0 H).
  destruct H as [<-|H]; [| exact (IH n H)].
  destruct (patternChannels_matched _ _ E) as (id & rest & Hsrc & Hid & Hn).
  exists id. split; [| exact Hid].
  rewrite Hsrc, Hn. apply substring_append.
Qed.

(** X4. [ContentWithMentionsReplaced] returns [Content] unchanged exactly
    when [Content] holds no "<@ID>" and no "<@!ID>" of a user of
    [Mentions]. *)
Theorem basic_unchanged_iff (m : Message.t) :
  ContentWithMentionsReplaced m = Message.Content m
  <-> forallb
        (fun user =>
           noneStartsIn (beginsWith (userTokens user)) (Message.Content m) "")
        (Message.Mentions m) = true.
Proof.
  exact (fold_basicStep_fixed (Message.Mentions m) (Message.Content m)).
Qed.

Lemma beginsWith_head (olds : list string) (c : ascii) (s : string) :
  Forall (fun old => exists t, old = String "<" t) olds ->
  beginsWith olds (String c s) = true ->
  c = "<"%char.
Proof.
  unfold beginsWith. induction 1 as [|old olds [t ->] _ IH]; cbn [existsb].
  - discriminate.
  - intros H. apply orb_true_iff in H as [H|H]; [| exact (IH H)].
    unfold strings.HasPrefix in H. rewrite prefix_cons in H.
    apply andb_true_iff in H as [H _]. now apply Ascii.eqb_eq in H.
Qed.

Lemma matches_head (c : ascii) (s : string) :
  matches patternChannels (String c s) = true -> c = "<"%char.
Proof.
  unfold matches, patternChannels. rewrite matchHere_lit_cons.
  destruct (Ascii.eqb_spec c "<") as [->|]; [reflexivity | discriminate].
Qed.

(** What only begins at a '<' begins nowhere in a text without '<'. *)
Lemma noneStartsIn_plain (hit : string -> bool) (pre rest : string) :
  (forall c s, hit (String c s) = true -> c = "<"%char) ->
  hasByte "<" pre = false ->
  noneStartsIn hit pre rest = true.
Proof.
  intros Hhit. induction pre as [|c pre IH]; intros H; [reflexivity |].
  cbn [hasByte] in H. apply orb_false_iff in H as [Hc Hpre].
  cbn [noneStartsIn append]. rewrite (IH Hpre), andb_true_r.
  apply negb_true_iff.
  destruct (hit (String c (pre ++ rest))) eqn:E; [| reflexivity].
  apply Hhit in E. subst c. discriminate Hc.
Qed.

Lemma userTokens_head (user : User.t) :
  Forall (fun old => exists t, old = String "<" t) (userTokens user).
Proof. repeat constructor; eexists; reflexivity. Qed.

Lemma userBody_plain (s : Session.t) (channel : Channel.t)
      (content : string) (user : User.t) :
  hasByte "<" content = false ->
  value (userBody s channel content user) = content.
Proof.
  intros H. rewrite userBody_value.
  apply Replace_clean; [reflexivity |].
  apply noneStartsIn_plain; [| exact H].
  intros c t. apply beginsWith_head, userTokens_head.
Qed.

Lemma basicStep_plain (content : string) (user : User.t) :
  hasByte "<" content = false -> basicStep content user = content.
Proof.
  intros H. apply basicStep_clean, noneStartsIn_plain; [| exact H].
  intros c t. apply beginsWith_head, userTokens_head.
Qed.

Lemma roleBody_plain (s : Session.t) (channel : Channel.t)
      (content roleID : string) :
  hasByte "<" content = false ->
  value (roleBody s channel content roleID) = content.
Proof.
  intros H. rewrite roleBody_value.
  destruct (State.Role_ _ _ _) as [role|err]; [| reflexivity].
  destruct (Role.Mentionable role); [| reflexivity].
  apply Replace_clean; [reflexivity |].
  apply noneStartsIn_plain; [| exact H].
  intros c t. apply beginsWith_head.
  repeat constructor; eexists; reflexivity.
Qed.

Lemma channelPass_plain (s : Session.t) (content : string) :
  hasByte "<" content = false ->
  regexp.ReplaceAllStringFunc patternChannels content (channelRepl s)
  = (content, []).
Proof.
  intros H. unfold regexp.ReplaceAllStringFunc.
  rewrite <- (append_empty_r content) at 1.
  rewrite replaceAll_copy
    by (apply noneStartsIn_plain; [exact matches_head | exact H]).
  cbn [regexp.replaceAll ret value calls fst snd].
  now rewrite append_empty_r.
Qed.

(** X5. A [Content] without the byte '<' is returned as it is by both
    resolvers, whatever [Mentions], [MentionRoles] and the cache hold; and
    when the cache is enabled and the message's channel is found, the
    channel pass then asks the cache for nothing. *)
Theorem plain_content_unchanged (m : Message.t) (s : Session.t) :
  hasByte "<" (Message.Content m) = false ->
  ContentWithMentionsReplaced m = Message.Content m
  /\ fst (value (ContentWithMoreMentionsReplaced m s)) = Message.Content m
  /\ (forall channel,
        Session.StateEnabled s = true ->
        State.Channel_ (Session.State s) (Message.ChannelID m)
        = Found channel ->
        calls (ContentWithMoreMentionsReplaced m s)
        = (CallChannel (Message.ChannelID m)
             :: map (fun user =>
                       CallMember (Channel.GuildID channel) (User.ID user))
                  (Message.Mentions m)
             ++ map (CallRole (Channel.GuildID channel))
                  (Message.MentionRoles m))%list).
Proof.
  intros H.
  assert (Hbasic : ContentWithMentionsReplaced m = Message.Content m).
  { apply (fold_left_fixed basicStep). intros user _.
    now apply basicStep_plain. }
  assert (Hloops : forall channel,
             afterRoles m s channel = Message.Content m).
  { intros channel. unfold afterRoles. rewrite !for_range_value.
    rewrite (fold_left_fixed _ (Message.Mentions m))
      by (intros user _; now apply userBody_plain).
    apply fold_left_fixed. intros roleID _. now apply roleBody_plain. }
  split; [exact Hbasic | split].
  - destruct (Session.StateEnabled s) eqn:Hon.
    + destruct (State.Channel_ (Session.State s) (Message.ChannelID m))
        as [channel|err] eqn:Hch.
      * rewrite (enhanced_passes m s channel Hon Hch). cbn [fst].
        fold (afterRoles m s channel). rewrite Hloops.
        now rewrite (channelPass_plain s _ H).
      * now rewrite (enhanced_missing m s err Hon Hch).
    + unfold ContentWithMoreMentionsReplaced. now rewrite Hon.
  - intros channel Hon Hch.
    rewrite (enhanced_found_calls m s channel Hon Hch), Hloops.
    unfold FindAllString.
    pose proof (replaceAll_calls patternChannels (channelRepl s)
                  (fun mention =>
                     CallChannel
                       (slice mention 2 (String.length mention - 1)))
                  0 (Message.Content m) (channelRepl_calls_any s)) as Hc.
    fold (regexp.ReplaceAllStringFunc patternChannels (Message.Content m)
            (channelRepl s)) in Hc.
    rewrite (channelPass_plain s _ H) in Hc. cbn [calls snd] in Hc.
    rewrite <- Hc. now rewrite app_nil_r.
Qed.

Lemma plain_content_unchanged_witness :
  ContentWithMentionsReplaced
    (Sample.message "10" "hi @alice > #general" ["5"] [Sample.alice])
  = "hi @alice > #general"
  /\ fst (value (ContentWithMoreMentionsReplaced
                   (Sample.message "10" "hi @alice > #general" ["5"]
                      [Sample.alice])
                   Sample.session))
     = "hi @alice > #general"
  /\ calls (ContentWithMoreMentionsReplaced
              (Sample.message "10" "hi @alice > #general" ["5"]
                 [Sample.alice])
              Sample.session)
     = [CallChannel "10"; CallMember "100" "42"; CallRole "100" "5"].
Proof.
  destruct (plain_content_unchanged
              (Sample.message "10" "hi @alice > #general" ["5"]
                 [Sample.alice])
              Sample.session eq_refl) as [Hbasic [Hmore Hcalls]].
  split; [exact Hbasic | split; [exact Hmore |]].
  exact (Hcalls Sample.lobby eq_refl eq_refl).
Defined.

Lemma fold_left_ext_in {A : Type} (f g : string -> A -> string)
      (xs : list A) (y : string) :
  (forall x c, In x xs -> f c x = g c x) ->
  fold_left f xs y = fold_left g xs y.
Proof.
  revert y; induction xs as [|x xs IH]; intros y H; [reflexivity |].
  cbn [fold_left]. rewrite (H x y (or_introl eq_refl)).
  apply IH. intros x' c Hin. apply H. now right.
Qed.

Lemma fold_left_skip {A : Type} (f : string -> A -> string)
      (xs : list A) (y : string) :
  (forall x c, In x xs -> f c x = c) -> fold_left f xs y = y.
Proof.
  intros H. apply fold_left_fixed. intros x Hin. now apply H.
Qed.

(** X6. With the cache enabled and the message's channel found,
    [ContentWithMoreMentionsReplaced] returns what
    [ContentWithMentionsReplaced] returns, and a nil error, when the cache
    adds nothing: no mentioned user has a nickname other than the user's
    name, every role ID misses the cache or names a role that is not
    mentionable, and every "<#...>" token of the basic result misses the
    cache or names a voice channel. *)
Theorem enhanced_degrades_to_basic (m : Message.t) (s : Session.t)
        (channel : Channel.t) :
  Session.StateEnabled s = true ->
  State.Channel_ (Session.State s) (Message.ChannelID m) = Found channel ->
  forallb (plainNick s channel) (Message.Mentions m) = true ->
  forallb (unresolvedRole s channel) (Message.MentionRoles m) = true ->
  forallb (unresolvedChannel s)
    (FindAllString patternChannels (ContentWithMentionsReplaced m)) = true ->
  value (ContentWithMoreMentionsReplaced m s)
  = (ContentWithMentionsReplaced m, None).
Proof.
  intros Hon Hch Hu Hr Hc.
  rewrite forallb_forall in Hu, Hr, Hc.
  rewrite (enhanced_passes m s channel Hon Hch). f_equal.
  rewrite !for_range_value.
  assert (Husers :
            fold_left (fun c x => value (userBody s channel c x))
              (Message.Mentions m) (Message.Content m)
            = ContentWithMentionsReplaced m).
  { apply fold_left_ext_in. intros user c Hin.
    rewrite userBody_value. specialize (Hu user Hin).
    unfold plainNick in Hu. apply String.eqb_eq in Hu. now rewrite Hu. }
  rewrite Husers.
  rewrite (fold_left_skip _ (Message.MentionRoles m)).
  - unfold regexp.ReplaceAllStringFunc.
    rewrite replaceAll_inert; [reflexivity |].
    intros mention Hin. now apply channelRepl_unresolved, Hc.
  - intros roleID c Hin. rewrite roleBody_value.
    specialize (Hr roleID Hin). unfold unresolvedRole in Hr.
    destruct (State.Role_ _ _ _) as [role|err]; [| reflexivity].
    apply negb_true_iff in Hr. now rewrite Hr.
Qed.

Lemma enhanced_degrades_to_basic_witness :
  value (ContentWithMoreMentionsReplaced
           (Sample.message "10" "<@43> <@!43> <@&6> <@&9> <#8> <#9>"
              ["6"; "9"] [Sample.bob])
           Sample.session)
  = (ContentWithMentionsReplaced
       (Sample.message "10" "<@43> <@!43> <@&6> <@&9> <#8> <#9>"
          ["6"; "9"] [Sample.bob]),
     None).
Proof.
  exact (enhanced_degrades_to_basic
           (Sample.message "10" "<@43> <@!43> <@&6> <@&9> <#8> <#9>"
              ["6"; "9"] [Sample.bob])
           Sample.session Sample.lobby
           eq_refl eq_refl eq_refl eq_refl eq_refl).
Defined.

Lemma prefix_inv (a s : string) :
  String.prefix a s = true -> exists post, s = a ++ post.
Proof.
  revert s; induction a as [|x a IH]; intros s H.
  - now exists s.
  - destruct s as [|y s]; [discriminate H |].
    rewrite prefix_cons in H. apply andb_true_iff in H as [Hxy Ha].
    apply Ascii.eqb_eq in Hxy. subst y.
    destruct (IH s Ha) as [post ->]. now exists post.
Qed.

Lemma userTokens_exclusive (id s : string) :
  strings.HasPrefix s (bareToken id) && strings.HasPrefix s (bangToken id)
  = false.
Proof.
  destruct (strings.HasPrefix s (bangToken id)) eqn:E;
    [| apply andb_false_r].
  destruct (prefix_inv _ _ E) as [post ->].
  now rewrite bare_not_at_bang.
Qed.

Lemma lookup_swap (id a b s : string) (ignoreRoot : bool) :
  strings.lookup [(bareToken id, a); (bangToken id, b)] s ignoreRoot
  = strings.lookup [(bangToken id, b); (bareToken id, a)] s ignoreRoot.
Proof.
  cbn [strings.lookup].
  replace (Nat.eqb (String.length (bareToken id)) 0) with false
    by reflexivity.
  replace (Nat.eqb (String.length (bangToken id)) 0) with false
    by reflexivity.
  rewrite andb_false_r. cbn [negb]. rewrite !andb_true_r.
  pose proof (userTokens_exclusive id s) as H.
  destruct (strings.HasPrefix s (bareToken id)),
           (strings.HasPrefix s (bangToken id));
    try reflexivity; discriminate H.
Qed.

Lemma WriteString_ext (r1 r2 : strings.Replacer) :
  (forall s ignoreRoot,
     strings.lookup r1 s ignoreRoot = strings.lookup r2 s ignoreRoot) ->
  forall s skip,
    strings.WriteString r1 skip s = strings.WriteString r2 skip s.
Proof.
  intros H. induction s as [|c s IH]; intros skip.
  - cbn [strings.WriteString]. now rewrite H.
  - destruct skip as [|k]; cbn [strings.WriteString]; [| apply IH].
    rewrite !H.
    destruct (strings.lookup r2 (String c s) false) as [[val [|k]]|];
      rewrite ?H;
      try destruct (strings.lookup r2 (String c s) true) as [[val' [|k']]|];
      now rewrite ?IH.
Qed.

(** X7. The tokens "<@ID>" and "<@!ID>" of one user never begin at the
    same byte of a string, so the order in which the two pairs are given
    to [NewReplacer] does not matter: each turn of the loop of
    [ContentWithMentionsReplaced] and of the user loop of
    [ContentWithMoreMentionsReplaced] returns the same string with the
    pair of "<@!ID>" first. *)
Theorem user_tokens_never_clash (s : Session.t) (channel : Channel.t)
        (user : User.t) (content : string) :
  strings.HasPrefix content (bareToken (User.ID user))
  && strings.HasPrefix content (bangToken (User.ID user)) = false
  /\ basicStep content user
     = strings.Replacer_Replace
         (strings.NewReplacer
            [("<@!" ++ User.ID user ++ ">", "@" ++ User.Username user);
             ("<@" ++ User.ID user ++ ">", "@" ++ User.Username user)])
         content
  /\ value (userBody s channel content user)
     = strings.Replacer_Replace
         (strings.NewReplacer
            [("<@!" ++ User.ID user ++ ">", "@" ++ nickOf s channel user);
             ("<@" ++ User.ID user ++ ">", "@" ++ User.Username user)])
         content.
Proof.
  split; [apply userTokens_exclusive | split].
  - unfold basicStep, strings.Replacer_Replace, strings.NewReplacer.
    apply WriteString_ext. intros str f.
    exact (lookup_swap (User.ID user) _ _ str f).
  - rewrite userBody_value.
    unfold strings.Replacer_Replace, strings.NewReplacer.
    apply WriteString_ext. intros str f.
    exact (lookup_swap (User.ID user) _ _ str f).
Qed.

(* ================================================================== *)
(** * Properties of the message flags *)

Lemma flag_and (a f : Z) :
  In a allMessageFlags -> In f allMessageFlags ->
  Z.eqb (Z.land a f) 0 = negb (Z.eqb a f).
Proof.
  unfold allMessageFlags. cbn [In]. intros Ha Hf.
  repeat (destruct Ha as [<-|Ha]; [| try contradiction]);
    repeat (destruct Hf as [<-|Hf]; [| try contradiction]);
    reflexivity.
Qed.

(** X8. The values of the [MessageFlags] block are single bits, each its
    own: in the bitwise OR of any of them, the bitwise AND with one of
    them is non-zero exactly when that one was among those combined (the
    test the comment on [Message.Flags] describes).  The [MessageFlag]
    block names the first three of these bits again. *)
Theorem message_flags_independent (flags : list Z) (flag : Z) :
  incl flags allMessageFlags ->
  In flag allMessageFlags ->
  (hasFlag (combine flags) flag = true <-> In flag flags)
  /\ MessageFlagCrossposted = MessageFlagsCrossPosted
  /\ MessageFlagIsCrosspost = MessageFlagsIsCrossPosted
  /\ MessageFlagSuppressEmbeds = MessageFlagsSupressEmbeds.
Proof.
  intros Hflags Hflag. split; [| repeat split].
  unfold hasFlag. induction flags as [|a flags IH]; cbn [combine fold_right].
  - cbn. split; [discriminate | contradiction].
  - fold (combine flags). rewrite Z.land_lor_distr_l.
    assert (Ha : In a allMessageFlags) by (apply Hflags; now left).
    assert (IH' := IH (fun x Hx => Hflags x (or_intror Hx))).
    pose proof (flag_and a flag Ha Hflag) as Hand.
    destruct (Z.eqb_spec a flag) as [->|Hne].
    + split; [now left |]. intros _. apply negb_true_iff, Z.eqb_neq.
      intros H0. apply Z.lor_eq_0_iff in H0 as [H0 _].
      apply Z.eqb_eq in H0. rewrite H0 in Hand. discriminate Hand.
    + cbn [negb] in Hand. apply Z.eqb_eq in Hand. rewrite Hand, Z.lor_0_l.
      rewrite IH'. cbn [In]. split; [now right | now intros [?|?]].
Qed.

Lemma message_flags_independent_witness :
  (hasFlag (combine [MessageFlagsUrgent; MessageFlagsCrossPosted])
     MessageFlagsSupressEmbeds = true
   <-> In MessageFlagsSupressEmbeds
         [MessageFlagsUrgent; MessageFlagsCrossPosted])
  /\ MessageFlagCrossposted = MessageFlagsCrossPosted
  /\ MessageFlagIsCrosspost = MessageFlagsIsCrossPosted
  /\ MessageFlagSuppressEmbeds = MessageFlagsSupressEmbeds.
Proof.
  apply (message_flags_independent
           [MessageFlagsUrgent; MessageFlagsCrossPosted]
           MessageFlagsSupressEmbeds).
  - intros x [<-|[<-|[]]]; cbn; tauto.
  - cbn; tauto.
Defined.

(* ================================================================== *)
(** * Properties of [MessageEdit] *)

Lemma update_length {A : Type} (l : list A) (n : nat) (v : A) :
  List.length (update l n v) = List.length l.
Proof.
  revert n; induction l as [|x l IH]; intros [|n]; cbn; try reflexivity.
  now rewrite IH.
Qed.

Lemma update_same {A : Type} (l : list A) (n : nat) (v w : A) :
  nth_error l n = Some w -> nth_error (update l n v) n = Some v.
Proof.
  revert n; induction l as [|x l IH]; intros [|n]; cbn; try discriminate.
  - reflexivity.
  - apply IH.
Qed.

Lemma update_other {A : Type} (l : list A) (n q : nat) (v : A) :
  q <> n -> nth_error (update l n v) q = nth_error l q.
Proof.
  revert n q; induction l as [|x l IH]; intros [|n] [|q] H; cbn;
    try reflexivity; try contradiction.
  apply IH. congruence.
Qed.

Lemma update_update {A : Type} (l : list A) (n : nat) (v w : A) :
  update (update l n v) n w = update l n w.
Proof.
  revert n; induction l as [|x l IH]; intros [|n]; cbn; try reflexivity.
  now rewrite IH.
Qed.

Lemma update_last {A : Type} (l : list A) (e v : A) :
  update (l ++ [e]) (List.length l) v = (l ++ [v])%list.
Proof. induction l as [|x l IH]; cbn; [reflexivity | now rewrite IH]. Qed.

Lemma nth_error_last {A : Type} (l : list A) (e : A) :
  nth_error (l ++ [e]) (List.length l) = Some e.
Proof. induction l as [|x l IH]; cbn; [reflexivity | exact IH]. Qed.

(** X9. [NewMessageEdit(channelID, messageID).SetContent(str).SetEmbed(embed)]
    returns the pointer [NewMessageEdit] returned; the value it points to
    has [Content] pointing to [str], [Embed] equal to [embed], a nil
    [AllowedMentions] and the [ID] and [Channel] given; and every
    [MessageEdit] that existed before is as it was. *)
Theorem message_edit_chain (h : Heap) (channelID messageID str : string)
        (embed : option nat) :
  andThen
    (SetContent (fst (NewMessageEdit channelID messageID h)) str
       (snd (NewMessageEdit channelID messageID h)))
    (fun m => SetEmbed m embed)
  = Some (fst (NewMessageEdit channelID messageID h),
          (h ++ [ {| MessageEdit.Content := Some str;
                     MessageEdit.Embed := embed;
                     MessageEdit.AllowedMentions := None;
                     MessageEdit.ID := messageID;
                     MessageEdit.Channel := channelID |} ])%list).
Proof.
  unfold NewMessageEdit, SetContent, SetEmbed, andThen. cbn [fst snd].
  rewrite nth_error_last, update_last, nth_error_last, update_last.
  reflexivity.
Qed.

(** X10. On any receiver, the two setters can be called in either order
    with the same outcome, and of two calls of [SetContent] the second
    decides; on a nil receiver each of them panics. *)
Theorem message_edit_setters_compose (h : Heap) (m : option nat)
        (a b : string) (embed : option nat) :
  andThen (SetContent m a h) (fun m' => SetEmbed m' embed)
  = andThen (SetEmbed m embed h) (fun m' => SetContent m' a)
  /\ andThen (SetContent m a h) (fun m' => SetContent m' b)
     = SetContent m b h
  /\ SetContent None a h = None
  /\ SetEmbed None embed h = None.
Proof.
  repeat split.
  - unfold SetContent, SetEmbed, andThen. destruct m as [p|]; [| reflexivity].
    destruct (nth_error h p) as [e|] eqn:E; [| reflexivity].
    rewrite !(update_same h p _ e E), !update_update. reflexivity.
  - unfold SetContent, andThen. destruct m as [p|]; [| reflexivity].
    destruct (nth_error h p) as [e|] eqn:E; [| reflexivity].
    rewrite (update_same h p _ e E), update_update. reflexivity.
Qed.

(** X11. A setter that returns returns its receiver, and changes nothing
    but the field it sets: the receiver keeps its [ID], its [Channel],
    its [AllowedMentions] and the other of [Content] and [Embed], and
    every other [MessageEdit] is as it was. *)
Theorem message_edit_setters_frame (h h' : Heap) (m m' : option nat)
        (str : string) (embed : option nat) :
  (SetContent m str h = Some (m', h') ->
   m' = m
   /\ exists p e,
        m = Some p /\ nth_error h p = Some e
        /\ nth_error h' p
           = Some {| MessageEdit.Content := Some str;
                     MessageEdit.Embed := MessageEdit.Embed e;
                     MessageEdit.AllowedMentions :=
                       MessageEdit.AllowedMentions e;
                     MessageEdit.ID := MessageEdit.ID e;
                     MessageEdit.Channel := MessageEdit.Channel e |}
        /\ List.length h' = List.length h
        /\ forall q, q <> p -> nth_error h' q = nth_error h q)
  /\
  (SetEmbed m embed h = Some (m', h') ->
   m' = m
   /\ exists p e,
        m = Some p /\ nth_error h p = Some e
        /\ nth_error h' p
           = Some {| MessageEdit.Content := MessageEdit.Content e;
                     MessageEdit.Embed := embed;
                     MessageEdit.AllowedMentions :=
                       MessageEdit.AllowedMentions e;
                     MessageEdit.ID := MessageEdit.ID e;
                     MessageEdit.Channel := MessageEdit.Channel e |}
        /\ List.length h' = List.length h
        /\ forall q, q <> p -> nth_error h' q = nth_error h q).
Proof.
  split; intros H; [unfold SetContent in H | unfold SetEmbed in H];
    destruct m as [p|]; try discriminate H;
    destruct (nth_error h p) as [e|] eqn:E; try discriminate H;
    injection H as <- <-; (split; [reflexivity |]);
    exists p, e; repeat split;
    first [ exact E | exact (update_same h p _ e E) | apply update_length
          | intros q Hq; now apply update_other ].
Qed.

Lemma message_edit_setters_frame_witness :
  (Some 1 = Some 1
   /\ exists p e,
        Some 1 = Some p
        /\ nth_error
             [MessageEdit.mk None None None "1" "10";
              MessageEdit.mk None (Some 4) None "2" "10"] p = Some e
        /\ nth_error
             [MessageEdit.mk None None None "1" "10";
              MessageEdit.mk (Some "hi") (Some 4) None "2" "10"] p
           = Some {| MessageEdit.Content := Some "hi";
                     MessageEdit.Embed := MessageEdit.Embed e;
                     MessageEdit.AllowedMentions :=
                       MessageEdit.AllowedMentions e;
                     MessageEdit.ID := MessageEdit.ID e;
                     MessageEdit.Channel := MessageEdit.Channel e |}
        /\ 2 = 2
        /\ forall q, q <> p ->
             nth_error
               [MessageEdit.mk None None None "1" "10";
                MessageEdit.mk (Some "hi") (Some 4) None "2" "10"] q
             = nth_error
                 [MessageEdit.mk None None None "1" "10";
                  MessageEdit.mk None (Some 4) None "2" "10"] q)
  /\
  (Some 0 = Some 0
   /\ exists p e,
        Some 0 = Some p
        /\ nth_error [MessageEdit.mk None None None "1" "10"] p = Some e
        /\ nth_error [MessageEdit.mk None (Some 7) None "1" "10"] p
           = Some {| MessageEdit.Content := MessageEdit.Content e;
                     MessageEdit.Embed := Some 7;
                     MessageEdit.AllowedMentions :=
                       MessageEdit.AllowedMentions e;
                     MessageEdit.ID := MessageEdit.ID e;
                     MessageEdit.Channel := MessageEdit.Channel e |}
        /\ 1 = 1
        /\ forall q, q <> p ->
             nth_error [MessageEdit.mk None (Some 7) None "1" "10"] q
             = nth_error [MessageEdit.mk None None None "1" "10"] q).
Proof.
  split.
  - exact (proj1 (message_edit_setters_frame
                    [MessageEdit.mk None None None "1" "10";
                     MessageEdit.mk None (Some 4) None "2" "10"]
                    [MessageEdit.mk None None None "1" "10";
                     MessageEdit.mk (Some "hi") (Some 4) None "2" "10"]
                    (Some 1) (Some 1) "hi" None)
             eq_refl).
  - exact (proj2 (message_edit_setters_frame
                    [MessageEdit.mk None None None "1" "10"]
                    [MessageEdit.mk None (Some 7) None "1" "10"]
                    (Some 0) (Some 0) "x" (Some 7))
             eq_refl).
Defined.

(* ================================================================== *)
(** * Well-formed content: each token is resolved on its own *)

Lemma digit_mismatch (a x : ascii) :
  isDigit a = true -> isDigit x = false -> Ascii.eqb x a = false.
Proof.
  intros Ha Hx. destruct (Ascii.eqb_spec x a) as [->|]; [| reflexivity].
  congruence.
Qed.

Lemma decimal_hasByte (c : ascii) (id : string) :
  isDigit c = false -> decimal id = true -> hasByte c id = false.
Proof.
  intros Hc. induction id as [|a id IH]; cbn [decimal hasByte]; intros H.
  - reflexivity.
  - apply andb_true_iff in H as [Ha Hid].
    rewrite (IH Hid), orb_false_r. rewrite Ascii.eqb_sym.
    now apply digit_mismatch.
Qed.

(** Two decimal IDs followed by ">" begin the same string only when they
    are equal. *)
Lemma prefix_ids (id id' rest : string) :
  decimal id = true -> decimal id' = true -> id <> id' ->
  String.prefix (id ++ ">") (id' ++ ">" ++ rest) = false.
Proof.
  revert id'; induction id as [|c id IH]; intros [|a id'] Hid Hid' Hne;
    cbn [append decimal] in *.
  - congruence.
  - apply andb_true_iff in Hid' as [Ha _]. rewrite prefix_cons.
    now rewrite (digit_mismatch a ">" Ha eq_refl).
  - apply andb_true_iff in Hid as [Hc _]. rewrite prefix_cons.
    rewrite Ascii.eqb_sym. now rewrite (digit_mismatch c ">" Hc eq_refl).
  - apply andb_true_iff in Hid as [Hc Hid].
    apply andb_true_iff in Hid' as [Ha Hid']. rewrite prefix_cons.
    destruct (Ascii.eqb_spec c a) as [->|]; [| reflexivity].
    cbn [andb]. apply IH; congruence.
Qed.

(** A byte that is no digit and not '>' does not begin a decimal ID
    followed by ">". *)
Lemma prefix_mark_id (x : ascii) (t id' rest : string) :
  isDigit x = false -> x <> ">"%char -> decimal id' = true ->
  String.prefix (String x t) (id' ++ ">" ++ rest) = false.
Proof.
  intros Hx Hgt Hid'. destruct id' as [|a id']; cbn [append decimal] in *;
    rewrite prefix_cons.
  - apply Ascii.eqb_neq in Hgt. now rewrite Hgt.
  - apply andb_true_iff in Hid' as [Ha _].
    now rewrite (digit_mismatch a x Ha Hx).
Qed.

Lemma prefix_id_mark (x : ascii) (id t : string) :
  isDigit x = false -> x <> ">"%char -> decimal id = true ->
  String.prefix (id ++ ">") (String x t) = false.
Proof.
  intros Hx Hgt Hid. destruct id as [|c id]; cbn [append decimal] in *;
    rewrite prefix_cons.
  - apply Ascii.eqb_neq in Hgt. rewrite Ascii.eqb_sym. now rewrite Hgt.
  - apply andb_true_iff in Hid as [Hc _]. rewrite Ascii.eqb_sym.
    now rewrite (digit_mismatch c x Hc Hx).
Qed.

(** A token that [hit] does not recognise, in a reading that only begins
    at a '<', holds no place where [hit] begins. *)
Lemma token_inert (hit : string -> bool) (body rest : string) :
  (forall c s, hit (String c s) = true -> c = "<"%char) ->
  hasByte "<" body = false ->
  hit (String "<" body ++ rest) = false ->
  noneStartsIn hit (String "<" body) rest = true.
Proof.
  intros Hhit Hbody H0. cbn [noneStartsIn]. rewrite H0. cbn [negb andb].
  now apply noneStartsIn_plain.
Qed.

Lemma hasByte_append (c : ascii) (a b : string) :
  hasByte c (a ++ b) = hasByte c a || hasByte c b.
Proof.
  induction a as [|x a IH]; cbn [append hasByte]; [reflexivity |].
  now rewrite IH, orb_assoc.
Qed.

Lemma token_body_plain (mark id : string) :
  hasByte "<" mark = false -> decimal id = true ->
  hasByte "<" (mark ++ id ++ ">") = false.
Proof.
  intros Hmark Hid. rewrite !hasByte_append, Hmark.
  now rewrite (decimal_hasByte "<" id eq_refl Hid).
Qed.

(** A pass that copies what it does not recognise works segment by
    segment. *)
Lemma scan_segments (P : string -> string) (hit : string -> bool)
      (T : segment -> segment) (segs : list segment) :
  P "" = "" ->
  (forall pre rest,
     noneStartsIn hit pre rest = true -> P (pre ++ rest) = pre ++ P rest) ->
  (forall seg rest,
     In seg segs ->
     (T seg = seg /\ noneStartsIn hit (render seg) rest = true)
     \/ P (render seg ++ rest) = render (T seg) ++ P rest) ->
  P (renderAll segs) = renderAll (map T segs).
Proof.
  intros Hnil Hcopy. induction segs as [|seg segs IH]; intros Hseg.
  - exact Hnil.
  - cbn [renderAll map].
    rewrite <- IH by (intros seg' rest Hin; apply Hseg; now right).
    destruct (Hseg seg (renderAll segs) (or_introl eq_refl))
      as [[-> Hinert]|Hhit].
    + now apply Hcopy.
    + exact Hhit.
Qed.

Ltac open_tokens :=
  unfold beginsWith, strings.HasPrefix, render, bareToken, bangToken,
    roleToken, channelToken;
  cbn [existsb map fst append];
  rewrite ?prefix_cons; cbn [Ascii.eqb Bool.eqb andb orb];
  rewrite ?append_assoc.

(** The tokens of the user [id] begin no other well-formed token. *)
Lemma user_tokens_miss (id : string) (seg : segment) (rest : string) :
  decimal id = true ->
  wellFormed seg = true ->
  match seg with
  | Text _ => False
  | UserMention _ id' => id' <> id
  | _ => True
  end ->
  beginsWith [bareToken id; bangToken id] (render seg ++ rest) = false.
Proof.
  intros Hid Hwf Hseg. destruct seg as [t|[|] id'|id'|id'];
    cbn [wellFormed] in Hwf; try contradiction; open_tokens.
  - rewrite (prefix_id_mark "!" id _ eq_refl ltac:(discriminate) Hid).
    now rewrite (prefix_ids id id' rest Hid Hwf ltac:(congruence)).
  - rewrite (prefix_ids id id' rest Hid Hwf ltac:(congruence)).
    now rewrite (prefix_mark_id "!" _ id' rest eq_refl ltac:(discriminate)
                   Hwf).
  - now rewrite (prefix_id_mark "&" id _ eq_refl ltac:(discriminate) Hid).
  - reflexivity.
Qed.

Lemma token_plain (seg : segment) :
  wellFormed seg = true ->
  match seg with
  | Text t => hasByte "<" t = false
  | _ => exists body, render seg = String "<" body
                      /\ hasByte "<" body = false
  end.
Proof.
  destruct seg as [t|[|] id|id|id]; cbn [wellFormed]; intros H.
  - unfold plain in H. now apply negb_true_iff in H.
  - exists ("@!" ++ id ++ ">"). split; [reflexivity |].
    now apply token_body_plain.
  - exists ("@" ++ id ++ ">"). split; [reflexivity |].
    now apply token_body_plain.
  - exists ("@&" ++ id ++ ">"). split; [reflexivity |].
    now apply token_body_plain.
  - exists ("#" ++ id ++ ">"). split; [reflexivity |].
    now apply token_body_plain.
Qed.

(** A well-formed segment that [hit] does not begin holds no place where
    [hit] begins. *)
Lemma segment_inert (hit : string -> bool) (seg : segment) (rest : string) :
  (forall c s, hit (String c s) = true -> c = "<"%char) ->
  wellFormed seg = true ->
  match seg with
  | Text _ => True
  | _ => hit (render seg ++ rest) = false
  end ->
  noneStartsIn hit (render seg) rest = true.
Proof.
  intros Hhit Hwf H. pose proof (token_plain seg Hwf) as Hp.
  destruct seg as [t|b id|id|id];
    [now apply noneStartsIn_plain | | |];
    destruct Hp as (body & Hr & Hbody); rewrite Hr in H |- *;
    now apply token_inert.
Qed.

Lemma user_step_segments (id name shown : string) (segs : list segment) :
  decimal id = true ->
  forallb wellFormed segs = true ->
  strings.Replacer_Replace [(bareToken id, name); (bangToken id, shown)]
    (renderAll segs)
  = renderAll (map (substUser id name shown) segs).
Proof.
  intros Hid Hwf. rewrite forallb_forall in Hwf.
  apply (scan_segments _ (beginsWith [bareToken id; bangToken id])).
  - reflexivity.
  - intros pre rest H. unfold strings.Replacer_Replace.
    now apply WriteString_copy.
  - intros seg rest Hin. specialize (Hwf seg Hin).
    assert (Hhead : forall c t,
               beginsWith [bareToken id; bangToken id] (String c t) = true ->
               c = "<"%char).
    { intros c t. apply beginsWith_head.
      repeat constructor; eexists; reflexivity. }
    destruct seg as [t|b id'|id'|id'].
    + left. split; [reflexivity |]. now apply segment_inert.
    + cbn [substUser]. destruct (String.eqb_spec id' id) as [->|Hne].
      * right. unfold strings.Replacer_Replace.
        destruct b; cbn [render].
        -- apply WriteString_hit; [discriminate | apply lookup_bang].
        -- apply WriteString_hit; [discriminate | apply lookup_bare].
      * left. split; [reflexivity |]. apply segment_inert; try assumption.
        now apply user_tokens_miss.
    + left. split; [reflexivity |]. apply segment_inert; try assumption.
      now apply user_tokens_miss.
    + left. split; [reflexivity |]. apply segment_inert; try assumption.
      now apply user_tokens_miss.
Qed.

Lemma substUser_wellFormed (id name shown : string) (segs : list segment) :
  plain name = true -> plain shown = true ->
  forallb wellFormed segs = true ->
  forallb wellFormed (map (substUser id name shown) segs) = true.
Proof.
  intros Hn Hs. induction segs as [|seg segs IH]; cbn [forallb map];
    [reflexivity |].
  intros H. apply andb_true_iff in H as [Hseg Hsegs].
  rewrite (IH Hsegs), andb_true_r.
  destruct seg as [t|b id'|id'|id']; cbn [substUser]; try exact Hseg.
  destruct (id' =? id); [| exact Hseg]. now destruct b.
Qed.

Lemma role_token_miss (id : string) (seg : segment) (rest : string) :
  decimal id = true ->
  wellFormed seg = true ->
  match seg with
  | Text _ => False
  | RoleMention id' => id' <> id
  | _ => True
  end ->
  beginsWith [roleToken id] (render seg ++ rest) = false.
Proof.
  intros Hid Hwf Hseg. destruct seg as [t|[|] id'|id'|id'];
    cbn [wellFormed] in Hwf; try contradiction; open_tokens.
  - reflexivity.
  - now rewrite (prefix_mark_id "&" _ id' rest eq_refl ltac:(discriminate)
                   Hwf).
  - now rewrite (prefix_ids id id' rest Hid Hwf ltac:(congruence)).
  - reflexivity.
Qed.

Lemma role_step_segments (id name : string) (segs : list segment) :
  decimal id = true ->
  forallb wellFormed segs = true ->
  strings.Replace (renderAll segs) (roleToken id) name
  = renderAll (map (substRole id name) segs).
Proof.
  intros Hid Hwf. rewrite forallb_forall in Hwf.
  unfold strings.Replace, strings.NewReplacer.
  apply (scan_segments _ (beginsWith [roleToken id])).
  - reflexivity.
  - intros pre rest H. unfold strings.Replacer_Replace.
    now apply WriteString_copy.
  - intros seg rest Hin. specialize (Hwf seg Hin).
    assert (Hhead : forall c t,
               beginsWith [roleToken id] (String c t) = true ->
               c = "<"%char).
    { intros c t. apply beginsWith_head.
      repeat constructor; eexists; reflexivity. }
    destruct seg as [t|b id'|id'|id'].
    + left. split; [reflexivity |]. now apply segment_inert.
    + left. split; [reflexivity |]. apply segment_inert; try assumption.
      now apply role_token_miss.
    + cbn [substRole]. destruct (String.eqb_spec id' id) as [->|Hne].
      * right. unfold strings.Replacer_Replace. cbn [render].
        apply WriteString_hit; [discriminate | apply lookup_role].
      * left. split; [reflexivity |]. apply segment_inert; try assumption.
        now apply role_token_miss.
    + left. split; [reflexivity |]. apply segment_inert; try assumption.
      now apply role_token_miss.
Qed.

Lemma substRole_wellFormed (id name : string) (segs : list segment) :
  plain name = true ->
  forallb wellFormed segs = true ->
  forallb wellFormed (map (substRole id name) segs) = true.
Proof.
  intros Hn. induction segs as [|seg segs IH]; cbn [forallb map];
    [reflexivity |].
  intros H. apply andb_true_iff in H as [Hseg Hsegs].
  rewrite (IH Hsegs), andb_true_r.
  destruct seg as [t|b id'|id'|id']; cbn [substRole]; try exact Hseg.
  now destruct (id' =? id).
Qed.

Lemma channel_pass_segments (s : Session.t) (segs : list segment) :
  forallb wellFormed segs = true ->
  value (regexp.ReplaceAllStringFunc patternChannels (renderAll segs)
           (channelRepl s))
  = renderAll (map (resolveChannel s) segs).
Proof.
  intros Hwf. rewrite forallb_forall in Hwf.
  apply (scan_segments
           (fun c => value (regexp.ReplaceAllStringFunc patternChannels c
                              (channelRepl s)))
           (matches patternChannels)).
  - reflexivity.
  - intros pre rest H. unfold regexp.ReplaceAllStringFunc.
    now rewrite (replaceAll_copy _ _ _ _ H).
  - intros seg rest Hin. specialize (Hwf seg Hin).
    destruct seg as [t|b id|id|id].
    + left. split; [reflexivity |].
      apply segment_inert; [exact matches_head | exact Hwf | exact I].
    + left. split; [reflexivity |].
      apply segment_inert; [exact matches_head | exact Hwf |].
      now destruct b.
    + left. split; [reflexivity |].
      apply segment_inert; [exact matches_head | exact Hwf | reflexivity].
    + right. cbn [wellFormed] in Hwf.
      pose proof (decimal_hasByte ">" id eq_refl Hwf) as Hid.
      unfold regexp.ReplaceAllStringFunc. cbn [render].
      rewrite (replaceAll_hit patternChannels (channelRepl s)
                 (channelToken id) rest ltac:(discriminate)
                 (patternChannels_matches id rest Hid)).
      cbn [value fst]. f_equal.
      rewrite channelRepl_value, slice_channelToken. cbn [resolveChannel].
      destruct (State.Channel_ _ id) as [found|err]; [| reflexivity].
      now destruct (ChannelType_eqb _ _).
Qed.

(** A loop of passes that each work segment by segment works segment by
    segment. *)
Lemma fold_segments {A : Type} (P : string -> A -> string)
      (T : A -> segment -> segment) (xs : list A) :
  (forall x segs,
     In x xs -> forallb wellFormed segs = true ->
     P (renderAll segs) x = renderAll (map (T x) segs)
     /\ forallb wellFormed (map (T x) segs) = true) ->
  forall segs,
    forallb wellFormed segs = true ->
    fold_left P xs (renderAll segs)
    = renderAll (map (fun seg => fold_left (fun sg x => T x sg) xs seg) segs)
    /\ forallb wellFormed
         (map (fun seg => fold_left (fun sg x => T x sg) xs seg) segs)
       = true.
Proof.
  induction xs as [|x xs IH]; intros Hstep segs Hwf; cbn [fold_left].
  - now rewrite map_id.
  - destruct (Hstep x segs (or_introl eq_refl) Hwf) as [-> Hwf'].
    destruct (IH (fun y sg Hy => Hstep y sg (or_intror Hy)) _ Hwf')
      as [-> Hwf''].
    rewrite map_map in Hwf'' |- *. now split.
Qed.

Lemma fold_substUser (name shown : User.t -> string) (users : list User.t)
      (seg : segment) :
  fold_left (fun sg user =>
               substUser (User.ID user) (name user) (shown user) sg)
    users seg
  = match seg with
    | UserMention bang id =>
        match find (fun user => id =? User.ID user) users with
        | Some user => Text (if bang then shown user else name user)
        | None => seg
        end
    | _ => seg
    end.
Proof.
  revert seg; induction users as [|user users IH]; intros seg;
    cbn [fold_left find].
  - now destruct seg.
  - rewrite IH. destruct seg as [t|b id|id|id]; cbn [substUser];
      try reflexivity.
    now destruct (id =? User.ID user).
Qed.

Lemma fold_substRole (roles : list Role.t) (seg : segment) :
  fold_left (fun sg role =>
               substRole (Role.ID role) ("@" ++ Role.Name role) sg)
    roles seg
  = match seg with
    | RoleMention id =>
        match find (fun role => id =? Role.ID role) roles with
        | Some role => Text ("@" ++ Role.Name role)
        | None => seg
        end
    | _ => seg
    end.
Proof.
  revert seg; induction roles as [|role roles IH]; intros seg;
    cbn [fold_left find].
  - now destruct seg.
  - rewrite IH. destruct seg as [t|b id|id|id]; cbn [substRole];
      try reflexivity.
    now destruct (id =? Role.ID role).
Qed.

Lemma plain_at (name : string) : plain name = true -> plain ("@" ++ name) = true.
Proof. intros H. exact H. Qed.

Lemma basic_segments (users : list User.t) (segs : list segment) :
  forallb basicUserOK users = true ->
  forallb wellFormed segs = true ->
  fold_left basicStep users (renderAll segs)
  = renderAll (map (basicResolve users) segs)
  /\ forallb wellFormed (map (basicResolve users) segs) = true.
Proof.
  intros Hu Hwf. rewrite forallb_forall in Hu.
  pose proof (fold_segments basicStep
                (fun user =>
                   substUser (User.ID user) ("@" ++ User.Username user)
                     ("@" ++ User.Username user))
                users) as H.
  assert (Hmap : map (basicResolve users) segs
                 = map (fun seg =>
                          fold_left
                            (fun sg user =>
                               substUser (User.ID user)
                                 ("@" ++ User.Username user)
                                 ("@" ++ User.Username user) sg)
                            users seg) segs).
  { apply map_ext. intros seg.
    rewrite (fold_substUser (fun user => "@" ++ User.Username user)
               (fun user => "@" ++ User.Username user)).
    destruct seg as [t|b id|id|id]; cbn [basicResolve]; try reflexivity.
    destruct (find _ users); [now destruct b | reflexivity]. }
  rewrite Hmap. apply H; [| exact Hwf].
  intros user sg Hin Hsg. specialize (Hu user Hin).
  unfold basicUserOK in Hu. apply andb_true_iff in Hu as [Hid Hname].
  split.
  - unfold basicStep, strings.NewReplacer.
    exact (user_step_segments (User.ID user) _ _ sg Hid Hsg).
  - apply substUser_wellFormed; try assumption; now apply plain_at.
Qed.

(** X12. On a well-formed [Content] (text without '<' and tokens with
    decimal IDs), with users of decimal ID whose names hold no '<',
    [ContentWithMentionsReplaced] resolves each token on its own: "<@id>"
    and "<@!id>" become "@Username" for the first user of [Mentions]
    with that ID, and the text, the tokens of other users, role tokens
    and channel tokens stay as they are. *)
Theorem basic_well_formed (m : Message.t) (segs : list segment) :
  Message.Content m = renderAll segs ->
  forallb wellFormed segs = true ->
  forallb basicUserOK (Message.Mentions m) = true ->
  ContentWithMentionsReplaced m
  = renderAll (map (basicResolve (Message.Mentions m)) segs).
Proof.
  intros Hc Hwf Hu.
  change (ContentWithMentionsReplaced m)
    with (fold_left basicStep (Message.Mentions m) (Message.Content m)).
  rewrite Hc. now apply basic_segments.
Qed.

Lemma basic_well_formed_witness :
  ContentWithMentionsReplaced
    (Sample.message "10" "<@43>, <@42> and <@!42>: see <@&5> in <#7>"
       ["5"] [Sample.alice])
  = "<@43>, @alice and @alice: see <@&5> in <#7>".
Proof.
  exact (basic_well_formed
           (Sample.message "10" "<@43>, <@42> and <@!42>: see <@&5> in <#7>"
              ["5"] [Sample.alice])
           [UserMention false "43"; Text ", "; UserMention false "42";
            Text " and "; UserMention true "42"; Text ": see ";
            RoleMention "5"; Text " in "; ChannelMention "7"]
           eq_refl eq_refl eq_refl).
Defined.

Lemma basicResolve_idem (users : list User.t) (seg : segment) :
  basicResolve users (basicResolve users seg) = basicResolve users seg.
Proof.
  destruct seg as [t|b id|id|id]; cbn [basicResolve]; try reflexivity.
  destruct (find _ users) eqn:E; [reflexivity |].
  cbn [basicResolve]. now rewrite E.
Qed.

(** X13. On a well-formed [Content], with users of decimal ID whose names
    hold no '<', [ContentWithMentionsReplaced] is idempotent: applied to
    its own result, with the same [Mentions], it returns that result. *)
Theorem basic_idempotent_well_formed (m : Message.t)
        (segs : list segment) :
  Message.Content m = renderAll segs ->
  forallb wellFormed segs = true ->
  forallb basicUserOK (Message.Mentions m) = true ->
  ContentWithMentionsReplaced (withContent m (ContentWithMentionsReplaced m))
  = ContentWithMentionsReplaced m.
Proof.
  intros Hc Hwf Hu.
  change (ContentWithMentionsReplaced m)
    with (fold_left basicStep (Message.Mentions m) (Message.Content m)).
  rewrite Hc.
  destruct (basic_segments (Message.Mentions m) segs Hu Hwf) as [-> Hwf'].
  change (ContentWithMentionsReplaced (withContent m ?c))
    with (fold_left basicStep (Message.Mentions m) c).
  destruct (basic_segments (Message.Mentions m) _ Hu Hwf') as [-> _].
  rewrite map_map. f_equal. apply map_ext. apply basicResolve_idem.
Qed.

Lemma basic_idempotent_well_formed_witness :
  ContentWithMentionsReplaced
    (withContent
       (Sample.message "10" "<@43>, <@42> and <@!42>" [] [Sample.alice])
       (ContentWithMentionsReplaced
          (Sample.message "10" "<@43>, <@42> and <@!42>" []
             [Sample.alice])))
  = ContentWithMentionsReplaced
      (Sample.message "10" "<@43>, <@42> and <@!42>" [] [Sample.alice]).
Proof.
  exact (basic_idempotent_well_formed
           (Sample.message "10" "<@43>, <@42> and <@!42>" [] [Sample.alice])
           [UserMention false "43"; Text ", "; UserMention false "42";
            Text " and "; UserMention true "42"]
           eq_refl eq_refl eq_refl).
Defined.

(** The role loop is the loop of the replacements over the roles it
    finds mentionable. *)
Lemma role_loop_value (s : Session.t) (channel : Channel.t)
      (roles : list string) (content : string) :
  value (for_range roles (roleBody s channel) content)
  = fold_left
      (fun c role =>
         strings.Replace c (roleToken (Role.ID role)) ("@" ++ Role.Name role))
      (flat_map
         (fun roleID =>
            match State.Role_ (Session.State s) (Channel.GuildID channel)
                    roleID with
            | Found role => if Role.Mentionable role then [role] else []
            | Missing _ => []
            end)
         roles)
      content.
Proof.
  rewrite for_range_value. revert content.
  induction roles as [|roleID roles IH]; intros content;
    cbn [fold_left flat_map]; [reflexivity |].
  rewrite fold_left_app, IH, roleBody_value.
  destruct (State.Role_ _ _ roleID) as [role|err]; [| reflexivity].
  now destruct (Role.Mentionable role).
Qed.

Lemma resolve_stages (m : Message.t) (s : Session.t) (channel : Channel.t)
      (seg : segment) :
  resolveChannel s
    (fold_left
       (fun sg role =>
          substRole (Role.ID role) ("@" ++ Role.Name role) sg)
       (resolvedRoles m s channel)
       (fold_left
          (fun sg user =>
             substUser (User.ID user) ("@" ++ User.Username user)
               ("@" ++ nickOf s channel user) sg)
          (Message.Mentions m) seg))
  = resolve m s channel seg.
Proof.
  rewrite (fold_substUser (fun user => "@" ++ User.Username user)
             (fun user => "@" ++ nickOf s channel user)).
  rewrite fold_substRole.
  destruct seg as [t|b id|id|id]; cbn [resolve]; try reflexivity.
  - destruct (find _ (Message.Mentions m)); [now destruct b | reflexivity].
  - now destruct (find _ (resolvedRoles m s channel)).
Qed.

(** X14. With the cache enabled and the message's channel found, on a
    well-formed [Content], with users and resolved roles of decimal ID
    whose names and nicknames hold no '<',
    [ContentWithMoreMentionsReplaced] resolves each token on its own and
    returns a nil error: "<@id>" becomes "@Username" and "<@!id>" the
    nickname (or the name) of the first user of [Mentions] with that ID;
    "<@&id>" becomes "@Name" for a role of [MentionRoles] that the cache
    holds as mentionable; "<#id>" becomes "#Name" for a channel of the
    cache that is no voice channel; the text and every other token stay
    as they are. *)
Theorem enhanced_well_formed (m : Message.t) (s : Session.t)
        (channel : Channel.t) (segs : list segment) :
  Session.StateEnabled s = true ->
  State.Channel_ (Session.State s) (Message.ChannelID m) = Found channel ->
  Message.Content m = renderAll segs ->
  forallb wellFormed segs = true ->
  forallb (userOK s channel) (Message.Mentions m) = true ->
  forallb roleOK (resolvedRoles m s channel) = true ->
  value (ContentWithMoreMentionsReplaced m s)
  = (renderAll (map (resolve m s channel) segs), None).
Proof.
  intros Hon Hch Hc Hwf Hu Hr.
  rewrite forallb_forall in Hu, Hr.
  rewrite (enhanced_passes m s channel Hon Hch). f_equal.
  rewrite role_loop_value, for_range_value, Hc.
  fold (resolvedRoles m s channel).
  destruct (fold_segments
              (fun c user => value (userBody s channel c user))
              (fun user =>
                 substUser (User.ID user) ("@" ++ User.Username user)
                   ("@" ++ nickOf s channel user))
              (Message.Mentions m)) with (segs := segs) as [-> Hwf1];
    [| exact Hwf |].
  { intros user sg Hin Hsg. specialize (Hu user Hin).
    unfold userOK in Hu. apply andb_true_iff in Hu as [Hu Hnick].
    apply andb_true_iff in Hu as [Hid Hname]. split.
    - rewrite userBody_value.
      exact (user_step_segments (User.ID user) _ _ sg Hid Hsg).
    - apply substUser_wellFormed; try assumption; now apply plain_at. }
  destruct (fold_segments
              (fun c role =>
                 strings.Replace c (roleToken (Role.ID role))
                   ("@" ++ Role.Name role))
              (fun role =>
                 substRole (Role.ID role) ("@" ++ Role.Name role))
              (resolvedRoles m s channel)) with (2 := Hwf1) as [-> Hwf2].
  { intros role sg Hin Hsg. specialize (Hr role Hin).
    unfold roleOK in Hr. apply andb_true_iff in Hr as [Hid Hname]. split.
    - exact (role_step_segments (Role.ID role) _ sg Hid Hsg).
    - apply substRole_wellFormed; try assumption; now apply plain_at. }
  rewrite (channel_pass_segments s _ Hwf2), !map_map.
  f_equal. apply map_ext. intros seg. apply resolve_stages.
Qed.

Lemma enhanced_well_formed_witness :
  value (ContentWithMoreMentionsReplaced
           (Sample.message "10"
              "<@43>, <@42> and <@!42>: <@&5>, <@&6> in <#7> or <#8>"
              ["5"; "6"] [Sample.alice; Sample.bob])
           Sample.session)
  = ("@bob, @alice and @Al: @mods, <@&6> in #general or <#8>", None).
Proof.
  exact (enhanced_well_formed
           (Sample.message "10"
              "<@43>, <@42> and <@!42>: <@&5>, <@&6> in <#7> or <#8>"
              ["5"; "6"] [Sample.alice; Sample.bob])
           Sample.session Sample.lobby
           [UserMention false "43"; Text ", "; UserMention false "42";
            Text " and "; UserMention true "42"; Text ": ";
            RoleMention "5"; Text ", "; RoleMention "6"; Text " in ";
            ChannelMention "7"; Text " or "; ChannelMention "8"]
           eq_refl eq_refl eq_refl eq_refl eq_refl eq_refl).
Defined.

(* ================================================================== *)
(** * The three passes of [ContentWithMoreMentionsReplaced] *)

(** With the cache enabled and the message's channel found, the function
    runs the user turn for every user of [Mentions], in order, then the
    role turn for every ID of [MentionRoles], in order, then the channel
    pass, and returns a nil error. *)
Lemma enhanced_turns (m : Message.t) (s : Session.t) (channel : Channel.t) :
  Session.StateEnabled s = true ->
  State.Channel_ (Session.State s) (Message.ChannelID m) = Found channel ->
  value (ContentWithMoreMentionsReplaced m s)
  = (value (channelPass s
              (fold_left (roleTurn s channel) (Message.MentionRoles m)
                 (fold_left (userTurn s channel) (Message.Mentions m)
                    (Message.Content m)))),
     None).
Proof.
  intros Hon Hch. rewrite (enhanced_passes m s channel Hon Hch).
  now rewrite !for_range_value.
Qed.

Lemma enhanced_turns_calls (m : Message.t) (s : Session.t)
      (channel : Channel.t) :
  Session.StateEnabled s = true ->
  State.Channel_ (Session.State s) (Message.ChannelID m) = Found channel ->
  calls (ContentWithMoreMentionsReplaced m s)
  = (CallChannel (Message.ChannelID m)
       :: map (fun user =>
                 CallMember (Channel.GuildID channel) (User.ID user))
            (Message.Mentions m)
       ++ map (CallRole (Channel.GuildID channel)) (Message.MentionRoles m)
       ++ calls (channelPass s
                   (fold_left (roleTurn s channel) (Message.MentionRoles m)
                      (fold_left (userTurn s channel) (Message.Mentions m)
                         (Message.Content m)))))%list.
Proof.
  intros Hon Hch. unfold ContentWithMoreMentionsReplaced.
  rewrite Hon. cbn [negb]. rewrite calls_bind.
  cbn [State.Channel value calls fst snd]. rewrite Hch.
  autorewrite with log.
  rewrite (for_range_calls (userBody s channel)
             (fun user => CallMember (Channel.GuildID channel) (User.ID user)))
    by apply userBody_calls.
  rewrite (for_range_calls (roleBody s channel)
             (CallRole (Channel.GuildID channel)))
    by apply roleBody_calls.
  rewrite !for_range_value. cbn [app]. now rewrite app_nil_r.
Qed.

Lemma userTurn_clean (s : Session.t) (channel : Channel.t) (user : User.t)
      (content : string) :
  noneStartsIn (beginsWith (userTokens user)) content "" = true ->
  userTurn s channel content user = content.
Proof.
  intros H. unfold userTurn. rewrite userBody_value.
  now apply Replace_clean.
Qed.

Lemma roleTurn_value (s : Session.t) (channel : Channel.t)
      (content roleID : string) :
  roleTurn s channel content roleID
  = match State.Role_ (Session.State s) (Channel.GuildID channel) roleID with
    | Found role =>
        if Role.Mentionable role
        then strings.Replace content (roleToken (Role.ID role))
               ("@" ++ Role.Name role)
        else content
    | Missing _ => content
    end.
Proof. apply roleBody_value. Qed.

Lemma channelPass_clean (s : Session.t) (content : string) :
  noneStartsIn (matches patternChannels) content "" = true ->
  channelPass s content = (content, []).
Proof.
  intros H. unfold channelPass, regexp.ReplaceAllStringFunc.
  rewrite <- (append_empty_r content) at 1.
  rewrite (replaceAll_copy _ _ _ _ H).
  cbn [regexp.replaceAll ret value calls fst snd].
  now rewrite append_empty_r.
Qed.

Lemma channelPass_leftmost (s : Session.t) (pre id post : string) :
  hasByte ">" id = false ->
  noneStartsIn (matches patternChannels) pre (channelToken id ++ post)
  = true ->
  channelPass s (pre ++ channelToken id ++ post)
  = (pre ++ value (channelRepl s (channelToken id))
       ++ value (channelPass s post),
     CallChannel id :: calls (channelPass s post)).
Proof.
  intros Hid Hpre. unfold channelPass.
  rewrite (ReplaceAll_leftmost patternChannels (channelRepl s) pre
             (channelToken id) post);
    [| discriminate | now apply patternChannels_matches | exact Hpre].
  now rewrite channelRepl_calls.
Qed.

(** C4. With the cache enabled and the message's channel found,
    [ContentWithMoreMentionsReplaced] runs the user turn for every user
    of [Mentions], in their order, on the content the turns before left
    (and then the role loop and the channel pass).  The turn of a user
    leaves a content without a token of that user as it is; it replaces
    the leftmost "<@ID>" by "@Username" and goes on behind it; and it
    replaces the leftmost "<@!ID>" by "@Nick" when the member is found
    with a non-empty [Nick], by "@Username" when the lookup fails or
    [Nick] is empty, and goes on behind it: so every occurrence is
    reached.  On "hi <@42> and <@!42>" with the nickname Al the function
    returns "hi @alice and @Al". *)
Theorem user_pass_substitution (m : Message.t) (s : Session.t)
        (channel : Channel.t) :
  Session.StateEnabled s = true ->
  State.Channel_ (Session.State s) (Message.ChannelID m) = Found channel ->
  value (ContentWithMoreMentionsReplaced m s)
  = (value (channelPass s
              (fold_left (roleTurn s channel) (Message.MentionRoles m)
                 (fold_left (userTurn s channel) (Message.Mentions m)
                    (Message.Content m)))),
     None)
  /\
  (forall user,
     (forall content,
        noneStartsIn (beginsWith (userTokens user)) content "" = true ->
        userTurn s channel content user = content)
     /\
     (forall pre post,
        noneStartsIn (beginsWith (userTokens user)) pre
          (bareToken (User.ID user) ++ post) = true ->
        userTurn s channel (pre ++ bareToken (User.ID user) ++ post) user
        = pre ++ ("@" ++ User.Username user)
            ++ userTurn s channel post user)
     /\
     (forall member,
        State.Member_ (Session.State s) (Channel.GuildID channel)
          (User.ID user) = Found member ->
        Member.Nick member <> "" ->
        forall pre post,
          noneStartsIn (beginsWith (userTokens user)) pre
            (bangToken (User.ID user) ++ post) = true ->
          userTurn s channel (pre ++ bangToken (User.ID user) ++ post) user
          = pre ++ ("@" ++ Member.Nick member)
              ++ userTurn s channel post user)
     /\
     ((forall member,
         State.Member_ (Session.State s) (Channel.GuildID channel)
           (User.ID user) = Found member ->
         Member.Nick member = "") ->
      forall pre post,
        noneStartsIn (beginsWith (userTokens user)) pre
          (bangToken (User.ID user) ++ post) = true ->
        userTurn s channel (pre ++ bangToken (User.ID user) ++ post) user
        = pre ++ ("@" ++ User.Username user)
            ++ userTurn s channel post user))
  /\
  value (ContentWithMoreMentionsReplaced
           (Sample.message "10" "hi <@42> and <@!42>" [] [Sample.alice])
           Sample.session)
  = ("hi @alice and @Al", None).
Proof.
  intros Hon Hch.
  split; [exact (enhanced_turns m s channel Hon Hch) |].
  split; [| reflexivity].
  intros user. unfold userTurn. repeat apply conj.
  - apply userTurn_clean.
  - apply userBody_bare.
  - intros member Hm Hnick pre post Hpre.
    rewrite (userBody_bang s channel user pre post Hpre).
    unfold nickOf. rewrite Hm.
    apply String.eqb_neq in Hnick. now rewrite Hnick.
  - intros Hm pre post Hpre.
    rewrite (userBody_bang s channel user pre post Hpre).
    unfold nickOf.
    destruct (State.Member_ _ _ _) as [member|err]; [| reflexivity].
    now rewrite (Hm member eq_refl).
Qed.

Lemma user_pass_substitution_witness :
  value (ContentWithMoreMentionsReplaced
           (Sample.message "10" "<@!43>, hi <@42> and <@!42>, see <#7>"
              ["5"] [Sample.alice; Sample.bob])
           Sample.session)
  = ("@bob, hi @alice and @Al, see #general", None)
  /\ userTurn Sample.session Sample.lobby "hi, how are you?" Sample.alice
     = "hi, how are you?"
  /\ userTurn Sample.session Sample.lobby
       ("hi " ++ bareToken "42" ++ " and <@!42>") Sample.alice
     = "hi " ++ "@alice"
         ++ userTurn Sample.session Sample.lobby " and <@!42>" Sample.alice
  /\ userTurn Sample.session Sample.lobby
       ("hi " ++ bangToken "42" ++ ", how are you?") Sample.alice
     = "hi " ++ "@Al"
         ++ userTurn Sample.session Sample.lobby ", how are you?"
              Sample.alice
  /\ userTurn Sample.session Sample.lobby
       ("yo " ++ bangToken "43" ++ "!") Sample.bob
     = "yo " ++ "@bob" ++ userTurn Sample.session Sample.lobby "!" Sample.bob.
Proof.
  destruct (user_pass_substitution
              (Sample.message "10" "<@!43>, hi <@42> and <@!42>, see <#7>"
                 ["5"] [Sample.alice; Sample.bob])
              Sample.session Sample.lobby eq_refl eq_refl)
    as [Hfun [Hturn _]].
  destruct (Hturn Sample.alice) as (Hbase & Hbare & Hnick & _).
  destruct (Hturn Sample.bob) as (_ & _ & _ & Hplain).
  repeat apply conj.
  - exact Hfun.
  - exact (Hbase "hi, how are you?" eq_refl).
  - exact (Hbare "hi " " and <@!42>" eq_refl).
  - exact (Hnick (Member.mk "Al") eq_refl
             (fun H : "Al" = "" =>
                eq_ind "Al"
                  (fun x => match x with "" => False | _ => True end)
                  I "" H)
             "hi " ", how are you?" eq_refl).
  - exact (Hplain
             (fun member H =>
                match H in _ = y
                      return match y with
                             | Found _ => Member.Nick member = ""
                             | Missing _ => True
                             end
                with eq_refl => I end)
             "yo " "!" eq_refl).
Defined.

(** C5. With the cache enabled and the message's channel found,
    [ContentWithMoreMentionsReplaced] runs the role turn for every ID of
    [MentionRoles], in their order, on the content the user loop and the
    turns before left, and its error is nil whatever the role lookups
    answer.  The turn of a role ID whose lookup fails, or finds a role
    that is not mentionable, leaves the content, and with it every
    "<@&ID>", as it is.  The turn of a role ID whose lookup finds a
    mentionable role leaves a content without the token of that role as
    it is, and replaces the leftmost "<@&ID>" by "@Name" and goes on
    behind it, so every occurrence is reached; the ID of the token is the
    one the role found carries, which is the ID asked for when the cache
    answers with the role it was asked for.  With the roles 5
    (mentionable), 6 (not mentionable) and 9 (not in the cache) the
    function returns "@mods <@&6> <@&9>". *)
Theorem role_pass_substitution (m : Message.t) (s : Session.t)
        (channel : Channel.t) :
  Session.StateEnabled s = true ->
  State.Channel_ (Session.State s) (Message.ChannelID m) = Found channel ->
  value (ContentWithMoreMentionsReplaced m s)
  = (value (channelPass s
              (fold_left (roleTurn s channel) (Message.MentionRoles m)
                 (fold_left (userTurn s channel) (Message.Mentions m)
                    (Message.Content m)))),
     None)
  /\
  snd (value (ContentWithMoreMentionsReplaced m s)) = None
  /\
  (forall roleID,
     ((forall role,
         State.Role_ (Session.State s) (Channel.GuildID channel) roleID
         = Found role ->
         Role.Mentionable role = false) ->
      forall content, roleTurn s channel content roleID = content)
     /\
     (forall role,
        State.Role_ (Session.State s) (Channel.GuildID channel) roleID
        = Found role ->
        Role.Mentionable role = true ->
        (forall content,
           noneStartsIn (beginsWith [roleToken (Role.ID role)]) content ""
           = true ->
           roleTurn s channel content roleID = content)
        /\
        (forall pre post,
           noneStartsIn (beginsWith [roleToken (Role.ID role)]) pre
             (roleToken (Role.ID role) ++ post) = true ->
           roleTurn s channel
             (pre ++ roleToken (Role.ID role) ++ post) roleID
           = pre ++ ("@" ++ Role.Name role)
               ++ roleTurn s channel post roleID)))
  /\
  value (ContentWithMoreMentionsReplaced
           (Sample.message "10" "<@&5> <@&6> <@&9>" ["5"; "6"; "9"] [])
           Sample.session)
  = ("@mods <@&6> <@&9>", None).
Proof.
  intros Hon Hch.
  pose proof (enhanced_turns m s channel Hon Hch) as Hfun.
  split; [exact Hfun |]. split; [now rewrite Hfun |].
  split; [| reflexivity].
  intros roleID. split.
  - intros Hoff content. rewrite roleTurn_value.
    destruct (State.Role_ _ _ _) as [role|err]; [| reflexivity].
    now rewrite (Hoff role eq_refl).
  - intros role Hrole Hmen. split.
    + intros content Hclean. rewrite roleTurn_value, Hrole, Hmen.
      unfold strings.Replace, strings.NewReplacer.
      now apply Replace_clean.
    + intros pre post Hpre. rewrite !roleTurn_value, Hrole, Hmen.
      unfold strings.Replace, strings.NewReplacer.
      apply Replace_leftmost; [discriminate | apply lookup_role | exact Hpre].
Qed.

Lemma role_pass_substitution_witness :
  value (ContentWithMoreMentionsReplaced
           (Sample.message "10" "<@&6>, <@&9> and <@&5>: <@42> asks <@&5> in <#7>"
              ["9"; "6"; "5"] [Sample.alice])
           Sample.session)
  = ("<@&6>, <@&9> and @mods: @alice asks @mods in #general", None)
  /\ snd (value (ContentWithMoreMentionsReplaced
                   (Sample.message "10"
                      "<@&6>, <@&9> and <@&5>: <@42> asks <@&5> in <#7>"
                      ["9"; "6"; "5"] [Sample.alice])
                   Sample.session))
     = None
  /\ roleTurn Sample.session Sample.lobby "keep <@&6>" "6" = "keep <@&6>"
  /\ roleTurn Sample.session Sample.lobby "keep <@&9>" "9" = "keep <@&9>"
  /\ roleTurn Sample.session Sample.lobby "no role here" "5"
     = "no role here"
  /\ roleTurn Sample.session Sample.lobby
       ("ask " ++ roleToken "5" ++ " or <@&5>, please") "5"
     = "ask " ++ "@mods"
         ++ roleTurn Sample.session Sample.lobby " or <@&5>, please" "5".
Proof.
  destruct (role_pass_substitution
              (Sample.message "10" "<@&6>, <@&9> and <@&5>: <@42> asks <@&5> in <#7>"
                 ["9"; "6"; "5"] [Sample.alice])
              Sample.session Sample.lobby eq_refl eq_refl)
    as [Hfun [Herr [Hturn _]]].
  destruct (Hturn "6") as [Hoff6 _].
  destruct (Hturn "9") as [Hoff9 _].
  destruct (Hturn "5") as [_ Hon5].
  destruct (Hon5 Sample.mods eq_refl eq_refl) as [Hbase Hleft].
  repeat apply conj.
  - exact Hfun.
  - exact Herr.
  - apply Hoff6. intros role H.
    exact (f_equal (fun r => match r with
                             | Found x => Role.Mentionable x
                             | Missing _ => false
                             end) (eq_sym H)).
  - apply Hoff9. intros role H.
    exact (match H in _ = y
                 return match y with
                        | Found _ => Role.Mentionable role = false
                        | Missing _ => True
                        end
           with eq_refl => I end).
  - exact (Hbase "no role here" eq_refl).
  - exact (Hleft "ask " " or <@&5>, please" eq_refl).
Defined.

(** C6, as the code has it.  With the cache enabled and the message's
    channel found, [ContentWithMoreMentionsReplaced] runs the channel
    pass on the content the two loops left.  The pass goes through the
    matches of the pattern from left to right, each search starting where
    the match before ended: a content in which the pattern matches
    nowhere stays as it is; the leftmost match, "<#" up to the first ">"
    behind it, stays as it is when the lookup of the bytes between fails
    or finds a voice channel, and becomes "#Name" otherwise ("#general"
    for a text channel named general); and the pass goes on behind that
    match in the same way.  With channel 7 a text channel named general,
    channel 8 a voice channel and no channel 9, the function returns
    "#general <#8> <#9>". *)
Theorem channel_pass_substitution (m : Message.t) (s : Session.t)
        (channel : Channel.t) :
  Session.StateEnabled s = true ->
  State.Channel_ (Session.State s) (Message.ChannelID m) = Found channel ->
  value (ContentWithMoreMentionsReplaced m s)
  = (value (channelPass s
              (fold_left (roleTurn s channel) (Message.MentionRoles m)
                 (fold_left (userTurn s channel) (Message.Mentions m)
                    (Message.Content m)))),
     None)
  /\
  (forall content,
     noneStartsIn (matches patternChannels) content "" = true ->
     value (channelPass s content) = content)
  /\
  (forall pre id post,
     hasByte ">" id = false ->
     noneStartsIn (matches patternChannels) pre (channelToken id ++ post)
     = true ->
     ((forall found,
         State.Channel_ (Session.State s) id = Found found ->
         Channel.Type_ found = ChannelTypeGuildVoice) ->
      value (channelPass s (pre ++ channelToken id ++ post))
      = pre ++ channelToken id ++ value (channelPass s post))
     /\
     (forall found,
        State.Channel_ (Session.State s) id = Found found ->
        Channel.Type_ found <> ChannelTypeGuildVoice ->
        value (channelPass s (pre ++ channelToken id ++ post))
        = pre ++ ("#" ++ Channel.Name found) ++ value (channelPass s post))
     /\
     (forall found,
        State.Channel_ (Session.State s) id = Found found ->
        Channel.Type_ found = ChannelTypeGuildText ->
        Channel.Name found = "general" ->
        value (channelPass s (pre ++ channelToken id ++ post))
        = pre ++ "#general" ++ value (channelPass s post)))
  /\
  value (ContentWithMoreMentionsReplaced
           (Sample.message "10" "<#7> <#8> <#9>" [] []) Sample.session)
  = ("#general <#8> <#9>", None).
Proof.
  intros Hon Hch.
  split; [exact (enhanced_turns m s channel Hon Hch) |].
  split; [| split; [| reflexivity]].
  - intros content Hclean. now rewrite (channelPass_clean s content Hclean).
  - intros pre id post Hid Hpre.
    rewrite (channelPass_leftmost s pre id post Hid Hpre).
    cbn [value fst]. rewrite channelRepl_value, slice_channelToken.
    repeat apply conj.
    + intros Hvoice.
      destruct (State.Channel_ _ id) as [found|err]; [| reflexivity].
      now rewrite (Hvoice found eq_refl).
    + intros found -> Htype.
      destruct (ChannelType_eqb _ _) eqn:E; [| reflexivity].
      now apply ChannelType_eqb_eq in E.
    + intros found -> Htype Hname. now rewrite Htype, Hname.
Qed.

Lemma channel_pass_substitution_witness :
  value (ContentWithMoreMentionsReplaced
           (Sample.message "10" "<@42>, <@&5>: <#8>, <#7> or <#9>, see <#7>"
              ["9"; "5"] [Sample.bob; Sample.alice])
           Sample.session)
  = ("@alice, @mods: <#8>, #general or <#9>, see #general", None)
  /\ value (channelPass Sample.session "no channel here, 7 > 5")
     = "no channel here, 7 > 5"
  /\ value (channelPass Sample.session
              ("in " ++ channelToken "8" ++ " or <#7>, see"))
     = "in " ++ channelToken "8"
         ++ value (channelPass Sample.session " or <#7>, see")
  /\ value (channelPass Sample.session
              ("in " ++ channelToken "9" ++ " or <#7>, see"))
     = "in " ++ channelToken "9"
         ++ value (channelPass Sample.session " or <#7>, see")
  /\ value (channelPass Sample.session
              ("see " ++ channelToken "7" ++ " and <#8>, ok"))
     = "see " ++ "#general"
         ++ value (channelPass Sample.session " and <#8>, ok").
Proof.
  destruct (channel_pass_substitution
              (Sample.message "10" "<@42>, <@&5>: <#8>, <#7> or <#9>, see <#7>"
                 ["9"; "5"] [Sample.bob; Sample.alice])
              Sample.session Sample.lobby eq_refl eq_refl)
    as [Hfun [Hbase [Hleft _]]].
  destruct (Hleft "in " "8" " or <#7>, see" eq_refl eq_refl)
    as [Hvoice _].
  destruct (Hleft "in " "9" " or <#7>, see" eq_refl eq_refl)
    as [Hmiss _].
  destruct (Hleft "see " "7" " and <#8>, ok" eq_refl eq_refl)
    as [_ [_ Htext]].
  repeat apply conj.
  - exact Hfun.
  - exact (Hbase "no channel here, 7 > 5" eq_refl).
  - apply Hvoice. intros found H.
    exact (f_equal (fun r => match r with
                             | Found x => Channel.Type_ x
                             | Missing _ => ChannelTypeGuildVoice
                             end) (eq_sym H)).
  - apply Hmiss. intros found H.
    exact (match H in _ = y
                 return match y with
                        | Found _ =>
                            Channel.Type_ found = ChannelTypeGuildVoice
                        | Missing _ => True
                        end
           with eq_refl => I end).
  - exact (Htext Sample.general eq_refl eq_refl eq_refl).
Defined.

(** C6, as the specification words it, fails: in "a <# b <#7> c" the
    substring "<#7>" matches the pattern and channel 7 is a text channel
    of the cache named general, yet the function returns the content as
    it is.  The scan matches "<# b <#7>", from the first "<#" to the
    first ">", looks up " b <#7", which the cache does not hold, and
    goes on behind it. *)
Lemma channel_token_swallowed :
  "a <# b <#7> c" = "a <# b " ++ channelToken "7" ++ " c"
  /\ regexp.matchHere patternChannels (channelToken "7" ++ " c")
     = Some (String.length (channelToken "7"))
  /\ State.Channel_ (Session.State Sample.session) "7" = Found Sample.general
  /\ Channel.Type_ Sample.general <> ChannelTypeGuildVoice
  /\ ContentWithMoreMentionsReplaced
       (Sample.message "10" "a <# b <#7> c" [] []) Sample.session
     = ("a <# b <#7> c", None, [CallChannel "10"; CallChannel " b <#7"])
  /\ fst (value (ContentWithMoreMentionsReplaced
                   (Sample.message "10" "a <# b <#7> c" [] [])
                   Sample.session))
     <> "a <# b " ++ "#general" ++ " c".
Proof. repeat split; cbn; discriminate. Qed.



Lemma length_zero (s : string) : String.length s = 0 -> s = "".
Proof. now destruct s. Qed.

Lemma wholeMatch_token (id : string) :
  hasByte ">" id = false -> wholeMatch (channelToken id) = true.
Proof.
  intros Hid. unfold wholeMatch.
  pose proof (patternChannels_matches id "" Hid) as H.
  rewrite append_empty_r in H. rewrite H. apply Nat.eqb_refl.
Qed.

Lemma wholeMatch_inv (mention : string) :
  wholeMatch mention = true ->
  exists id, mention = channelToken id /\ hasByte ">" id = false.
Proof.
  unfold wholeMatch.
  destruct (regexp.matchHere patternChannels mention) as [n|] eqn:E;
    [| discriminate].
  intros Hn. apply Nat.eqb_eq in Hn.
  destruct (patternChannels_matched _ _ E) as (id & rest & -> & Hid & ->).
  rewrite length_append in Hn.
  assert (Hrest : rest = "") by (apply length_zero; lia).
  subst rest. exists id. now rewrite append_empty_r.
Qed.

(** The scan applies its function to whole matches only. *)
Lemma replaceAll_onlyOn (repl other : string -> M string) (skip : nat)
      (src : string) :
  regexp.replaceAll patternChannels (onlyOn wholeMatch repl other) skip src
  = regexp.replaceAll patternChannels repl skip src.
Proof.
  revert skip; induction src as [|c src IH]; intros skip; [reflexivity |].
  destruct skip as [|k]; cbn [regexp.replaceAll]; [| apply IH].
  destruct (regexp.matchHere patternChannels (String c src))
    as [[|n]|] eqn:E; rewrite ?IH; try reflexivity.
  destruct (patternChannels_matched _ _ E) as (id & rest & Hsrc & Hid & Hn).
  assert (Hm : substring 0 (S n) (String c src) = channelToken id)
    by (rewrite Hsrc, Hn; apply substring_append).
  rewrite Hm. unfold onlyOn at 1. now rewrite (wholeMatch_token id Hid).
Qed.

(** X3. The function literal of the channel pass is applied to whole
    matches of the pattern only: with the cache enabled and the message's
    channel found, [ContentWithMoreMentionsReplaced] returns the same
    content and makes the same calls when the literal is exchanged, on
    every argument that is not a whole match, for any other function.  A
    whole match is "<#", bytes other than '>', and ">": it has at least
    three bytes, so the slice [mention[2 : len(mention)-1]] is within
    bounds, and the slice is the bytes between "<#" and ">". *)
Theorem channel_mentions_well_formed (m : Message.t) (s : Session.t)
        (channel : Channel.t) (other : string -> M string) :
  Session.StateEnabled s = true ->
  State.Channel_ (Session.State s) (Message.ChannelID m) = Found channel ->
  value (ContentWithMoreMentionsReplaced m s)
  = (value (regexp.ReplaceAllStringFunc patternChannels
              (fold_left (roleTurn s channel) (Message.MentionRoles m)
                 (fold_left (userTurn s channel) (Message.Mentions m)
                    (Message.Content m)))
              (onlyOn wholeMatch (channelRepl s) other)),
     None)
  /\
  calls (ContentWithMoreMentionsReplaced m s)
  = (CallChannel (Message.ChannelID m)
       :: map (fun user =>
                 CallMember (Channel.GuildID channel) (User.ID user))
            (Message.Mentions m)
       ++ map (CallRole (Channel.GuildID channel)) (Message.MentionRoles m)
       ++ calls (regexp.ReplaceAllStringFunc patternChannels
                   (fold_left (roleTurn s channel) (Message.MentionRoles m)
                      (fold_left (userTurn s channel) (Message.Mentions m)
                         (Message.Content m)))
                   (onlyOn wholeMatch (channelRepl s) other)))%list
  /\
  (forall mention,
     wholeMatch mention = true ->
     exists id,
       mention = channelToken id
       /\ hasByte ">" id = false
       /\ 2 <= String.length mention - 1 <= String.length mention
       /\ slice mention 2 (String.length mention - 1) = id).
Proof.
  intros Hon Hch. unfold regexp.ReplaceAllStringFunc.
  rewrite replaceAll_onlyOn. repeat apply conj.
  - exact (enhanced_turns m s channel Hon Hch).
  - exact (enhanced_turns_calls m s channel Hon Hch).
  - intros mention H. destruct (wholeMatch_inv mention H) as (id & -> & Hid).
    exists id. repeat split; [exact Hid | | | apply slice_channelToken].
    + unfold channelToken. cbn [append String.length].
      rewrite length_append. cbn [String.length]. lia.
    + lia.
Qed.

Lemma channel_mentions_well_formed_witness :
  value (ContentWithMoreMentionsReplaced
           (Sample.message "10" "<@42>, <@&5>: <#7>, <# 7 > or <#>, <#7"
              ["9"; "5"] [Sample.bob; Sample.alice])
           Sample.session)
  = (value (regexp.ReplaceAllStringFunc patternChannels
              "@alice, @mods: <#7>, <# 7 > or <#>, <#7"
              (onlyOn wholeMatch (channelRepl Sample.session)
                 (fun _ => ("", [CallChannel "out of range"])))),
     None)
  /\
  calls (ContentWithMoreMentionsReplaced
           (Sample.message "10" "<@42>, <@&5>: <#7>, <# 7 > or <#>, <#7"
              ["9"; "5"] [Sample.bob; Sample.alice])
           Sample.session)
  = [CallChannel "10"; CallMember "100" "43"; CallMember "100" "42";
     CallRole "100" "9"; CallRole "100" "5";
     CallChannel "7"; CallChannel " 7 "; CallChannel ""]
  /\
  exists id,
    "<# 7 >" = channelToken id
    /\ hasByte ">" id = false
    /\ 2 <= String.length "<# 7 >" - 1 <= String.length "<# 7 >"
    /\ slice "<# 7 >" 2 (String.length "<# 7 >" - 1) = id.
Proof.
  destruct (channel_mentions_well_formed
              (Sample.message "10" "<@42>, <@&5>: <#7>, <# 7 > or <#>, <#7"
                 ["9"; "5"] [Sample.bob; Sample.alice])
              Sample.session Sample.lobby
              (fun _ => ("", [CallChannel "out of range"]))
              eq_refl eq_refl) as (Hval & Hcalls & Hwhole).
  repeat apply conj.
  - exact Hval.
  - exact Hcalls.
  - exact (Hwhole "<# 7 >" eq_refl).
Defined.
